(** * p-llm: the file-comparison CLI (src/index.ts)

    A shallow embedding of the program and the proofs of its specified
    behaviour.  The program is a linear script: it loads a JSON history
    store, asks the user a few questions, reads two files, sends one chat
    request whose answer is streamed to the terminal, and appends a session
    record to the store.

    Layout:
    - [result], [exn]: what a JavaScript computation yields;
    - [JSON], [trim], [Date]: the platform functions the program calls, on
      texts of 8-bit characters and on safe integers;
    - the program's types and functions ([initializeClient],
      [sendMessageToChatGPTWithStream], [loadHistory], [saveHistory],
      [main]), in a state monad over the file system, the console and the
      module variable [openai];
    - the vocabulary of the statements and some sample worlds;
    - the lemmas and the theorems: the specified behaviour first, then
      what else the code shows (what a run leaves alone, how it fails,
      what it keeps from one run to the next). *)

From Stdlib Require Import ZArith NArith QArith String Ascii List Lia.
From Stdlib Require Import DecimalFacts DecimalPos DecimalN.
From stdpp Require Import gmap strings list.

Local Open Scope string_scope.
Local Open Scope list_scope.

(** ** Outcomes of a computation *)

(** The exceptions the program and the platform raise.  [Error] carries the
    message given to [new Error(...)]; [SystemError] is what [fs] raises,
    with its [code]. *)
Inductive exn : Type :=
  | Error (message : string)
  | TypeError
  | SyntaxError
  | SystemError (code : string).

(** A computation returns, throws, or leaves the part of JavaScript that the
    embedding covers ([NotModelled]: a number that is not a safe integer, a
    character above U+00FF, a value that does not inhabit the TypeScript
    type ascribed to it, a parser out of fuel).  Nothing is claimed about a
    [NotModelled] run. *)
Inductive result (A : Type) : Type :=
  | Ok (a : A)
  | Throw (e : exn)
  | NotModelled.
Arguments Ok {A} a.
Arguments Throw {A} e.
Arguments NotModelled {A}.

Definition rbind {A B} (r : result A) (k : A -> result B) : result B :=
  match r with
  | Ok a => k a
  | Throw e => Throw e
  | NotModelled => NotModelled
  end.

Definition rmap {A B} (f : A -> B) (r : result A) : result B :=
  rbind r (fun a => Ok (f a)).

(** ** JSON *)

Module JSON.

(** JSON text is handled as a list of characters. *)
Abbreviation text := (list ascii).

(** The values of JSON.  An object keeps its properties in insertion
    order, which is the order [JSON.stringify] writes them in.  Numbers are
    the safe integers; strings are over 8-bit characters. *)
#[warnings="-register-all"]
Inductive json : Type :=
  | JNull
  | JBool (b : bool)
  | JNum (n : Z)
  | JStr (s : string)
  | JArr (items : list json)
  | JObj (members : list (string * json)).

(** *** Serialisation *)

Definition hex_digit (n : N) : ascii :=
  if (n <? 10)%N then ascii_of_N (48 + n) else ascii_of_N (87 + n).

(** QuoteJSONString, one character. *)
Definition escape_char (c : ascii) : text :=
  if Ascii.eqb c "034" then ["\"; "034"]%char
  else if Ascii.eqb c "\" then ["\"; "\"]%char
  else if Ascii.eqb c "008" then ["\"; "b"]%char
  else if Ascii.eqb c "012" then ["\"; "f"]%char
  else if Ascii.eqb c "010" then ["\"; "n"]%char
  else if Ascii.eqb c "013" then ["\"; "r"]%char
  else if Ascii.eqb c "009" then ["\"; "t"]%char
  else if (N_of_ascii c <? 32)%N then
    ["\"; "u"; "0"; "0"; hex_digit (N_of_ascii c / 16); hex_digit (N_of_ascii c mod 16)]%char
  else [c].

Definition escape (s : text) : text := flat_map escape_char s.

Definition quote (s : string) : text :=
  ("034"%char :: escape (list_ascii_of_string s)) ++ ["034"%char].

Fixpoint digits_of_uint (u : Decimal.uint) : text :=
  match u with
  | Decimal.Nil => []
  | Decimal.D0 u => "0"%char :: digits_of_uint u
  | Decimal.D1 u => "1"%char :: digits_of_uint u
  | Decimal.D2 u => "2"%char :: digits_of_uint u
  | Decimal.D3 u => "3"%char :: digits_of_uint u
  | Decimal.D4 u => "4"%char :: digits_of_uint u
  | Decimal.D5 u => "5"%char :: digits_of_uint u
  | Decimal.D6 u => "6"%char :: digits_of_uint u
  | Decimal.D7 u => "7"%char :: digits_of_uint u
  | Decimal.D8 u => "8"%char :: digits_of_uint u
  | Decimal.D9 u => "9"%char :: digits_of_uint u
  end.

(** Number::toString on an integer below 10^21. *)
Definition print_Z (n : Z) : text :=
  match n with
  | Z0 => ["0"%char]
  | Zpos p => digits_of_uint (Pos.to_uint p)
  | Zneg p => "-"%char :: digits_of_uint (Pos.to_uint p)
  end.

Fixpoint join (sep : text) (parts : list text) : text :=
  match parts with
  | [] => []
  | [p] => p
  | p :: ps => p ++ sep ++ join sep ps
  end.

(** A line break followed by the indentation, when there is a gap. *)
Definition newline (gap indent : text) : text :=
  match gap with
  | [] => []
  | _ => "010"%char :: indent
  end.

Definition colon (gap : text) : text :=
  match gap with
  | [] => [":"%char]
  | _ => [":"; " "]%char
  end.

(** SerializeJSONProperty, with SerializeJSONArray and SerializeJSONObject:
    [indent] is the indentation of the enclosing line. *)
Fixpoint serialize (gap indent : text) (v : json) : text :=
  match v with
  | JNull => list_ascii_of_string "null"
  | JBool true => list_ascii_of_string "true"
  | JBool false => list_ascii_of_string "false"
  | JNum n => print_Z n
  | JStr s => quote s
  | JArr [] => list_ascii_of_string "[]"
  | JArr items =>
      let stepback := indent in
      let indent := indent ++ gap in
      "["%char :: newline gap indent
        ++ join (","%char :: newline gap indent) (map (serialize gap indent) items)
        ++ newline gap stepback ++ ["]"%char]
  | JObj [] => list_ascii_of_string "{}"
  | JObj members =>
      let stepback := indent in
      let indent := indent ++ gap in
      "{"%char :: newline gap indent
        ++ join (","%char :: newline gap indent)
             (map (fun kv => quote (fst kv) ++ colon gap ++ serialize gap indent (snd kv))
                members)
        ++ newline gap stepback ++ ["}"%char]
  end.

(** [JSON.stringify(value, null, space)] for a numeric [space]. *)
Definition stringify (value : json) (space : nat) : string :=
  string_of_list_ascii (serialize (repeat " "%char (Nat.min space 10)) [] value).

(** *** Parsing *)

Definition is_ws (c : ascii) : bool :=
  Ascii.eqb c " " || Ascii.eqb c "009" || Ascii.eqb c "010" || Ascii.eqb c "013".

Fixpoint skip_ws (s : text) : text :=
  match s with
  | c :: r => if is_ws c then skip_ws r else s
  | [] => []
  end.

Definition hex_value (c : ascii) : option N :=
  let n := N_of_ascii c in
  if (48 <=? n)%N && (n <=? 57)%N then Some (n - 48)%N
  else if (97 <=? n)%N && (n <=? 102)%N then Some (n - 87)%N
  else if (65 <=? n)%N && (n <=? 70)%N then Some (n - 55)%N
  else None.

Definition hex4 (a b c d : ascii) : option N :=
  match hex_value a, hex_value b, hex_value c, hex_value d with
  | Some x, Some y, Some z, Some w => Some (((x * 16 + y) * 16 + z) * 16 + w)%N
  | _, _, _, _ => None
  end.

(** The character a one-letter escape stands for. *)
Definition unescape (e : ascii) : option ascii :=
  if Ascii.eqb e "034" then Some "034"%char
  else if Ascii.eqb e "\" then Some "\"%char
  else if Ascii.eqb e "/" then Some "/"%char
  else if Ascii.eqb e "b" then Some "008"%char
  else if Ascii.eqb e "f" then Some "012"%char
  else if Ascii.eqb e "n" then Some "010"%char
  else if Ascii.eqb e "r" then Some "013"%char
  else if Ascii.eqb e "t" then Some "009"%char
  else None.

(** The characters of a string literal, read after its opening quote, and
    what follows its closing quote. *)
Fixpoint parse_chars (s : text) : result (text * text) :=
  match s with
  | [] => Throw SyntaxError
  | c :: r =>
      if Ascii.eqb c "034" then Ok ([], r)
      else if Ascii.eqb c "\" then
        match r with
        | [] => Throw SyntaxError
        | e :: r1 =>
            if Ascii.eqb e "u" then
              match r1 with
              | h1 :: h2 :: h3 :: h4 :: r2 =>
                  match hex4 h1 h2 h3 h4 with
                  | None => Throw SyntaxError
                  | Some n =>
                      if (n <=? 255)%N
                      then rmap (fun p => (ascii_of_N n :: fst p, snd p)) (parse_chars r2)
                      else NotModelled
                  end
              | _ => Throw SyntaxError
              end
            else
              match unescape e with
              | Some c' => rmap (fun p => (c' :: fst p, snd p)) (parse_chars r1)
              | None => Throw SyntaxError
              end
        end
      else if (N_of_ascii c <? 32)%N then Throw SyntaxError
      else rmap (fun p => (c :: fst p, snd p)) (parse_chars r)
  end.

Definition digit_of (c : ascii) : option (Decimal.uint -> Decimal.uint) :=
  if Ascii.eqb c "0" then Some Decimal.D0
  else if Ascii.eqb c "1" then Some Decimal.D1
  else if Ascii.eqb c "2" then Some Decimal.D2
  else if Ascii.eqb c "3" then Some Decimal.D3
  else if Ascii.eqb c "4" then Some Decimal.D4
  else if Ascii.eqb c "5" then Some Decimal.D5
  else if Ascii.eqb c "6" then Some Decimal.D6
  else if Ascii.eqb c "7" then Some Decimal.D7
  else if Ascii.eqb c "8" then Some Decimal.D8
  else if Ascii.eqb c "9" then Some Decimal.D9
  else None.

Fixpoint read_digits (s : text) : Decimal.uint * text :=
  match s with
  | [] => (Decimal.Nil, [])
  | c :: r =>
      match digit_of c with
      | Some d => let (u, r') := read_digits r in (d u, r')
      | None => (Decimal.Nil, s)
      end
  end.

(** Largest integer that JavaScript numbers hold exactly along with all
    smaller ones: 2^53 - 1. *)
Definition MAX_SAFE_INTEGER : Z := 9007199254740991.

Definition safe_integer (n : Z) : bool :=
  (- MAX_SAFE_INTEGER <=? n)%Z && (n <=? MAX_SAFE_INTEGER)%Z.

Definition starts_fraction (s : text) : bool :=
  match s with
  | c :: _ => Ascii.eqb c "." || Ascii.eqb c "e" || Ascii.eqb c "E"
  | [] => false
  end.

(** A number literal.  Only integer literals in the safe range are given a
    value; a fraction, an exponent, a larger integer and [-0] are valid
    JSON that the embedding does not cover. *)
Definition parse_number (s : text) : result (Z * text) :=
  let (neg, s1) :=
    match s with
    | c :: r => if Ascii.eqb c "-" then (true, r) else (false, s)
    | [] => (false, s)
    end in
  let (u, r) := read_digits s1 in
  match u with
  | Decimal.Nil => Throw SyntaxError
  | _ =>
      if negb (Decimal.uint_beq (Decimal.unorm u) u) then Throw SyntaxError
      else if starts_fraction r then NotModelled
      else
        let n := Z.of_N (N.of_uint u) in
        if neg && (n =? 0)%Z then NotModelled
        else if negb (safe_integer n) then NotModelled
        else Ok (if neg then (- n)%Z else n, r)
  end.

Fixpoint strip_prefix (p s : text) : option text :=
  match p, s with
  | [], _ => Some s
  | a :: p', b :: s' => if Ascii.eqb a b then strip_prefix p' s' else None
  | _ :: _, [] => None
  end.

Definition keyword (word : string) (v : json) (s : text) : result (json * text) :=
  match strip_prefix (list_ascii_of_string word) s with
  | Some r => Ok (v, r)
  | None => Throw SyntaxError
  end.

(** A property name made of digits only may be an array index, which an
    object lists before its other properties whatever the insertion order. *)
Definition index_like (k : string) : bool :=
  match list_ascii_of_string k with
  | [] => false
  | cs => forallb (fun c => match digit_of c with Some _ => true | None => false end) cs
  end.

(** CreateDataProperty: a repeated name keeps its place and takes the new
    value. *)
Fixpoint obj_set (k : string) (v : json) (m : list (string * json)) : list (string * json) :=
  match m with
  | [] => [(k, v)]
  | (k', v') :: m' => if String.eqb k k' then (k, v) :: m' else (k', v') :: obj_set k v m'
  end.

Definition build_object (members : list (string * json)) : result json :=
  if existsb (fun kv => index_like (fst kv)) members then NotModelled
  else Ok (JObj (fold_left (fun m kv => obj_set (fst kv) (snd kv) m) members [])).

(** The recursive-descent parser.  [fuel] bounds the nesting and the number
    of elements; [parse] gives it the length of the text, which is enough
    for every text [stringify] writes ([JSONFacts.parse_stringify]). *)
Fixpoint parse_value (fuel : nat) (s : text) : result (json * text) :=
  match fuel with
  | O => NotModelled
  | S fuel =>
      match s with
      | [] => Throw SyntaxError
      | c :: r =>
          if Ascii.eqb c "034" then
            rmap (fun p => (JStr (string_of_list_ascii (fst p)), snd p)) (parse_chars r)
          else if Ascii.eqb c "[" then
            match skip_ws r with
            | [] => Throw SyntaxError
            | c' :: r' =>
                if Ascii.eqb c' "]" then Ok (JArr [], r')
                else rmap (fun p => (JArr (fst p), snd p)) (parse_elements fuel (c' :: r'))
            end
          else if Ascii.eqb c "{" then
            match skip_ws r with
            | [] => Throw SyntaxError
            | c' :: r' =>
                if Ascii.eqb c' "}" then Ok (JObj [], r')
                else
                  rbind (parse_members fuel (c' :: r')) (fun p =>
                  rmap (fun o => (o, snd p)) (build_object (fst p)))
            end
          else if Ascii.eqb c "t" then keyword "true" (JBool true) s
          else if Ascii.eqb c "f" then keyword "false" (JBool false) s
          else if Ascii.eqb c "n" then keyword "null" JNull s
          else rmap (fun p => (JNum (fst p), snd p)) (parse_number s)
      end
  end
with parse_elements (fuel : nat) (s : text) : result (list json * text) :=
  match fuel with
  | O => NotModelled
  | S fuel =>
      rbind (parse_value fuel s) (fun p =>
      match skip_ws (snd p) with
      | [] => Throw SyntaxError
      | c :: r =>
          if Ascii.eqb c "," then
            rmap (fun q => (fst p :: fst q, snd q)) (parse_elements fuel (skip_ws r))
          else if Ascii.eqb c "]" then Ok ([fst p], r)
          else Throw SyntaxError
      end)
  end
with parse_members (fuel : nat) (s : text) : result (list (string * json) * text) :=
  match fuel with
  | O => NotModelled
  | S fuel =>
      match s with
      | [] => Throw SyntaxError
      | c :: r =>
          if negb (Ascii.eqb c "034") then Throw SyntaxError
          else
            rbind (parse_chars r) (fun k =>
            match skip_ws (snd k) with
            | [] => Throw SyntaxError
            | c1 :: r1 =>
                if negb (Ascii.eqb c1 ":") then Throw SyntaxError
                else
                  rbind (parse_value fuel (skip_ws r1)) (fun p =>
                  let kv := (string_of_list_ascii (fst k), fst p) in
                  match skip_ws (snd p) with
                  | [] => Throw SyntaxError
                  | c2 :: r2 =>
                      if Ascii.eqb c2 "," then
                        rmap (fun q => (kv :: fst q, snd q)) (parse_members fuel (skip_ws r2))
                      else if Ascii.eqb c2 "}" then Ok ([kv], r2)
                      else Throw SyntaxError
                  end)
            end)
      end
  end.

(** [JSON.parse(text)]: one value, with white space around it and nothing
    else. *)
Definition parse (data : string) : result json :=
  let s := skip_ws (list_ascii_of_string data) in
  rbind (parse_value (S (length s)) s) (fun p =>
  match skip_ws (snd p) with
  | [] => Ok (fst p)
  | _ :: _ => Throw SyntaxError
  end).

End JSON.

Import JSON.

(** ** Strings and dates of the platform *)

Definition nl : string := String "010" EmptyString.

(** Truthiness of a string: every string but the empty one. *)
Definition truthy (s : string) : bool := negb (String.eqb s EmptyString).

(** Truthiness of a value that is a string or [undefined]. *)
Definition truthy_opt (s : option string) : bool :=
  match s with
  | Some s => truthy s
  | None => false
  end.

(** WhiteSpace and LineTerminator among the 8-bit characters: TAB, LF, VT,
    FF, CR, SP and NBSP. *)
Definition is_space (c : ascii) : bool :=
  let n := N_of_ascii c in
  ((9 <=? n)%N && (n <=? 13)%N) || (n =? 32)%N || (n =? 160)%N.

Fixpoint trim_start (s : list ascii) : list ascii :=
  match s with
  | c :: r => if is_space c then trim_start r else s
  | [] => []
  end.

(** [String.prototype.trim]. *)
Definition trim (s : string) : string :=
  string_of_list_ascii
    (rev (trim_start (rev (trim_start (list_ascii_of_string s))))).

Module Date.

Local Open Scope Z_scope.

(** A time value: milliseconds since 1970-01-01T00:00:00Z. *)
Definition t := Z.

Definition digit (n : Z) : ascii := ascii_of_N (Z.to_N (48 + n mod 10)).

Definition digits2 (n : Z) : list ascii := [digit (n / 10); digit n].
Definition digits3 (n : Z) : list ascii := digit (n / 100) :: digits2 n.
Definition digits4 (n : Z) : list ascii := digit (n / 1000) :: digits3 n.
Definition digits6 (n : Z) : list ascii :=
  digit (n / 100000) :: digit (n / 10000) :: digits4 n.

(** Year, month and day of a day number counted from 1970-01-01, in the
    proleptic Gregorian calendar. *)
Definition civil (day : Z) : Z * Z * Z :=
  let z := day + 719468 in
  let era := z / 146097 in
  let doe := z - era * 146097 in
  let yoe := (doe - doe / 1460 + doe / 36524 - doe / 146096) / 365 in
  let doy := doe - (365 * yoe + yoe / 4 - yoe / 100) in
  let mp := (5 * doy + 2) / 153 in
  let d := doy - (153 * mp + 2) / 5 + 1 in
  let m := if mp <? 10 then mp + 3 else mp - 9 in
  let y := yoe + era * 400 + (if m <=? 2 then 1 else 0) in
  (y, m, d).

Definition year_digits (y : Z) : list ascii :=
  if (0 <=? y) && (y <=? 9999) then digits4 y
  else (if y <? 0 then "-"%char else "+"%char) :: digits6 (Z.abs y).

(** [Date.prototype.toISOString]: YYYY-MM-DDTHH:mm:ss.sssZ, the year
    written with a sign and six digits outside 0..9999. *)
Definition toISOString (tv : t) : string :=
  let day := tv / 86400000 in
  let ms := tv mod 86400000 in
  let '(y, m, d) := civil day in
  string_of_list_ascii
    (year_digits y ++ "-"%char :: digits2 m ++ "-"%char :: digits2 d
       ++ "T"%char :: digits2 (ms / 3600000)
       ++ ":"%char :: digits2 (ms / 60000 mod 60)
       ++ ":"%char :: digits2 (ms / 1000 mod 60)
       ++ "."%char :: digits3 (ms mod 1000) ++ ["Z"%char]).

Definition is_digit (c : ascii) : bool :=
  (48 <=? Z.of_N (N_of_ascii c)) && (Z.of_N (N_of_ascii c) <=? 57).

(** The shape -MM-DDTHH:mm:ss.sssZ that follows the year. *)
Definition iso_rest (l : list ascii) : bool :=
  match l with
  | [dash1; mo1; mo2; dash2; da1; da2; sep; ho1; ho2; col1; mi1; mi2; col2; se1; se2;
     dot; ms1; ms2; ms3; zulu] =>
      Ascii.eqb dash1 "-" && is_digit mo1 && is_digit mo2 && Ascii.eqb dash2 "-"
      && is_digit da1 && is_digit da2 && Ascii.eqb sep "T"
      && is_digit ho1 && is_digit ho2 && Ascii.eqb col1 ":"
      && is_digit mi1 && is_digit mi2 && Ascii.eqb col2 ":"
      && is_digit se1 && is_digit se2 && Ascii.eqb dot "."
      && is_digit ms1 && is_digit ms2 && is_digit ms3 && Ascii.eqb zulu "Z"
  | _ => false
  end.

(** An instant in the ISO 8601 format of ECMAScript: a year of four
    digits, or of a sign and six digits, and the rest. *)
Definition iso_instant (str : string) : bool :=
  match list_ascii_of_string str with
  | y1 :: y2 :: y3 :: y4 :: y5 :: y6 :: y7 :: rest =>
      if is_digit y1
      then is_digit y2 && is_digit y3 && is_digit y4 && iso_rest (y5 :: y6 :: y7 :: rest)
      else (Ascii.eqb y1 "+" || Ascii.eqb y1 "-")
           && is_digit y2 && is_digit y3 && is_digit y4 && is_digit y5 && is_digit y6
           && is_digit y7 && iso_rest rest
  | _ => false
  end.

End Date.

(** ** The program's types *)

(** [interface HistoryData], with the element type of [sessions] named. *)
Record SessionRecord : Type := {
  id : Z;
  selectorText : string;
  filePath1 : string;
  filePath2 : string;
  taskPrompt : string;
  timestamp : string;
}.

(** [openAiApiKey?: string]: [None] is [undefined]. *)
Record HistoryData : Type := {
  openAiApiKey : option string;
  rawTextsUsed : list string;
  sessions : list SessionRecord;
}.

Inductive Role : Type := system | user | assistant.

Record AIMessage : Type := {
  role : Role;
  content : string;
}.

Record CurrentAIConversation : Type := {
  messages : list AIMessage;
}.

(** The provider's library, as far as the program touches it. *)
Module OpenAI.

(** A client handle: [new OpenAI({ apiKey })]. *)
Record client : Type := { apiKey : string }.

(** A streamed event, [ChatCompletionChunk]. *)
Record Delta : Type := { content : option string }.
Record Choice : Type := { delta : Delta }.
Record ChatCompletionChunk : Type := { choices : list Choice }.

(** The body of [chat.completions.create]. *)
Record request : Type := {
  messages : list AIMessage;
  model : string;
  temperature : option Q;
  stream : bool;
}.

End OpenAI.

(** ** The process and its surroundings *)

Inductive arg : Type :=
  | Str (s : string)
  | Exn (e : exn).

(** What the process does that can be seen from outside, in order. *)
Inductive event : Type :=
  | console_log_ev (args : list arg)
  | console_error_ev (args : list arg)
  | stdout_write_ev (chunk : string)
  | asked (message : string)
  | requested (c : OpenAI.client) (r : OpenAI.request).

(** An entry of a list question. *)
Inductive choice : Type :=
  | Item (s : string)
  | Separator.

(** What the run is given: the module constant [HISTORY_FILE], the working
    directory as [path.resolve] sees it, the user at the keyboard ([typed]
    at the input question of a name, [picked] in the list), the provider,
    the clock, and the errors [fs] raises for a path it cannot read or
    write.  A completion is a finite list of events: the provider rejects
    the request or streams to the end. *)
Record Env : Type := {
  HISTORY_FILE : string;
  path_resolve : string -> string;
  typed : string -> string;
  picked : nat;
  completions_create :
    OpenAI.client -> OpenAI.request -> exn + list OpenAI.ChatCompletionChunk;
  now : Date.t;
  read_error : string -> exn;
  write_error : string -> exn;
}.

(** What the run changes: the files that can be read (absolute path to
    text; [read_only] when the disk refuses writes), the module variable
    [openai] and the trace of events. *)
Record State : Type := {
  files : gmap string string;
  read_only : bool;
  openai : option OpenAI.client;
  trace : list event;
}.

Definition M (A : Type) : Type := Env -> State -> result A * State.

#[global] Instance M_ret : MRet M := fun A a _ s => (Ok a, s).
#[global] Instance M_bind : MBind M := fun A B k m env s =>
  match m env s with
  | (Ok a, s') => k a env s'
  | (Throw e, s') => (Throw e, s')
  | (NotModelled, s') => (NotModelled, s')
  end.

Definition throw {A} (e : exn) : M A := fun _ s => (Throw e, s).
Definition not_modelled {A} : M A := fun _ s => (NotModelled, s).

(** [try { body } catch (err) { handler }] *)
Definition try_catch {A} (body : M A) (handler : exn -> M A) : M A := fun env s =>
  match body env s with
  | (Throw err, s') => handler err env s'
  | r => r
  end.

Definition lift {A} (r : result A) : M A := fun _ s => (r, s).

Definition ask {A} (f : Env -> A) : M A := fun env s => (Ok (f env), s).
Definition get {A} (f : State -> A) : M A := fun _ s => (Ok (f s), s).

Definition add_trace (evs : list event) (s : State) : State :=
  {| files := files s; read_only := read_only s; openai := openai s;
     trace := trace s ++ evs |}.

Definition set_file (path data : string) (s : State) : State :=
  {| files := <[path := data]> (files s); read_only := read_only s;
     openai := openai s; trace := trace s |}.

Definition set_client (c : OpenAI.client) (s : State) : State :=
  {| files := files s; read_only := read_only s; openai := Some c;
     trace := trace s |}.

Definition emit (e : event) : M unit := fun _ s => (Ok tt, add_trace [e] s).

Definition console_log (args : list arg) : M unit := emit (console_log_ev args).
Definition console_error (args : list arg) : M unit := emit (console_error_ev args).
Definition stdout_write (chunk : string) : M unit := emit (stdout_write_ev chunk).

(** [fs.readFileSync(path, "utf-8")] *)
Definition readFileSync (path : string) : M string := fun env s =>
  match files s !! path with
  | Some data => (Ok data, s)
  | None => (Throw (read_error env path), s)
  end.

(** [fs.writeFileSync(path, data, "utf-8")] *)
Definition writeFileSync (path data : string) : M unit := fun env s =>
  if read_only s then (Throw (write_error env path), s)
  else (Ok tt, set_file path data s).

(** The assignment [openai = c]. *)
Definition set_openai (c : OpenAI.client) : M unit := fun _ s => (Ok tt, set_client c s).

(** An input question of [inquirer.prompt]: the answer is what the user
    types at the question of that name. *)
Definition prompt_input (name message : string) : M string :=
  emit (asked message);; ask (fun env => typed env name).

Definition selectable (choices : list choice) : list string :=
  omap (fun c => match c with Item s => Some s | Separator => None end) choices.

(** A list question: the answer is the entry the user stops on, never the
    separator. *)
Definition prompt_list (name message : string) (choices : list choice) : M string :=
  emit (asked message);;
  i ← ask picked;
  match selectable choices !! i with
  | Some s => mret s
  | None => not_modelled
  end.

(** ** The history store as JSON *)

Definition json_of_session (r : SessionRecord) : json :=
  JObj [("id", JNum (id r));
        ("selectorText", JStr (selectorText r));
        ("filePath1", JStr (filePath1 r));
        ("filePath2", JStr (filePath2 r));
        ("taskPrompt", JStr (taskPrompt r));
        ("timestamp", JStr (timestamp r))].

(** The value [JSON.stringify] sees in a store: a property that is
    [undefined] is left out.  The properties come in the order of the
    object literals that create the store. *)
Definition json_of_history (h : HistoryData) : json :=
  JObj (match openAiApiKey h with
        | Some k => [("openAiApiKey", JStr k)]
        | None => []
        end
        ++ [("rawTextsUsed", JArr (map JStr (rawTextsUsed h)));
            ("sessions", JArr (map json_of_session (sessions h)))]).

Definition string_of_json (v : json) : option string :=
  match v with
  | JStr s => Some s
  | _ => None
  end.

Definition session_of_json (v : json) : option SessionRecord :=
  match v with
  | JObj [(k1, JNum n); (k2, JStr s); (k3, JStr p1); (k4, JStr p2); (k5, JStr tp); (k6, JStr ts)] =>
      if String.eqb k1 "id" && String.eqb k2 "selectorText" && String.eqb k3 "filePath1"
         && String.eqb k4 "filePath2" && String.eqb k5 "taskPrompt" && String.eqb k6 "timestamp"
      then Some {| id := n; selectorText := s; filePath1 := p1; filePath2 := p2;
                   taskPrompt := tp; timestamp := ts |}
      else None
  | _ => None
  end.

Definition lists_of_json (key : option string) (k2 : string) (v2 : json)
    (k3 : string) (v3 : json) : option HistoryData :=
  match v2, v3 with
  | JArr texts, JArr items =>
      if String.eqb k2 "rawTextsUsed" && String.eqb k3 "sessions" then
        texts ← mapM string_of_json texts;
        items ← mapM session_of_json items;
        Some {| openAiApiKey := key; rawTextsUsed := texts; sessions := items |}
      else None
  | _, _ => None
  end.

(** The values that inhabit [HistoryData] as the program writes them. *)
Definition history_of_json (v : json) : option HistoryData :=
  match v with
  | JObj [(k2, v2); (k3, v3)] => lists_of_json None k2 v2 k3 v3
  | JObj [(k1, JStr key); (k2, v2); (k3, v3)] =>
      if String.eqb k1 "openAiApiKey" then lists_of_json (Some key) k2 v2 k3 v3 else None
  | _ => None
  end.

(** What [loadHistory] hands out: the value [JSON.parse] made, of any
    shape, or the object literal of its [catch] branch. *)
Inductive history_value : Type :=
  | parsed (v : json)
  | literal (h : HistoryData).

(** The store [main] works on, [const history = loadHistory()], when the
    value inhabits [HistoryData] the way the program's own objects do.  A
    parsed object without the [openAiApiKey] property is left out: the
    property would be created after the other two, and a [HistoryData]
    does not record that. *)
Definition typed_store (x : history_value) : option HistoryData :=
  match x with
  | literal h => Some h
  | parsed v =>
      match history_of_json v with
      | Some h =>
          match openAiApiKey h with
          | Some _ => Some h
          | None => None
          end
      | None => None
      end
  end.

Definition as_HistoryData (x : history_value) : M HistoryData :=
  match typed_store x with
  | Some h => mret h
  | None => not_modelled
  end.

(** ** The program's functions *)

(** [initializeClient] *)
Definition initializeClient (apiKey : option string) : M (option OpenAI.client) :=
  match apiKey with
  | Some key =>
      if truthy key then set_openai {| OpenAI.apiKey := key |}
      else throw (Error "Failed to initiate OpenAI Client")
  | None => throw (Error "Failed to initiate OpenAI Client")
  end;;
  get openai.

(** [openai.chat.completions.create(body)] *)
Definition chat_completions_create (c : OpenAI.client) (body : OpenAI.request)
    : M (list OpenAI.ChatCompletionChunk) :=
  emit (requested c body);;
  answer ← ask (fun env => completions_create env c body);
  match answer with
  | inl err => throw err
  | inr completion => mret completion
  end.

(** The loop [for await (const event of completion)] with its variable
    [message]. *)
Fixpoint for_await (completion : list OpenAI.ChatCompletionChunk) (message : string)
    : M string :=
  match completion with
  | [] => mret message
  | event :: completion =>
      match OpenAI.choices event with
      | [] => throw TypeError
      | choice0 :: _ =>
          match OpenAI.content (OpenAI.delta choice0) with
          | Some content =>
              if truthy content then
                stdout_write content;;
                for_await completion (message ++ content)
              else for_await completion message
          | None => for_await completion message
          end
      end
  end.

(** [sendMessageToChatGPTWithStream] *)
Definition sendMessageToChatGPTWithStream (conversation : CurrentAIConversation)
    (model : option string) (temperature : option Q) : M string :=
  let model := default "gpt-4o-mini" model in
  handle ← get openai;
  match handle with
  | None => throw (Error "OpenAI not initialized")
  | Some handle =>
      completion ←
        try_catch
          (chat_completions_create handle
             {| OpenAI.messages := messages conversation;
                OpenAI.model := model;
                OpenAI.temperature := temperature;
                OpenAI.stream := true |})
          (fun err => console_log [Exn err];; throw (Error "Error in stream"));
      for_await completion EmptyString
  end.

Definition defaultHistory : HistoryData :=
  {| openAiApiKey := None; rawTextsUsed := []; sessions := [] |}.

(** [loadHistory]: the value comes back as [JSON.parse] made it. *)
Definition loadHistory : M history_value :=
  try_catch
    (path ← ask HISTORY_FILE;
     data ← readFileSync path;
     v ← lift (JSON.parse data);
     mret (parsed v))
    (fun err => mret (literal defaultHistory)).

(** [saveHistory] *)
Definition saveHistory (historyData : HistoryData) : M unit :=
  path ← ask HISTORY_FILE;
  writeFileSync path (JSON.stringify (json_of_history historyData) 2).

(** The assignments to the store in [main]. *)
Definition set_openAiApiKey (key : string) (h : HistoryData) : HistoryData :=
  {| openAiApiKey := Some key; rawTextsUsed := rawTextsUsed h; sessions := sessions h |}.

Definition push_rawText (text : string) (h : HistoryData) : HistoryData :=
  {| openAiApiKey := openAiApiKey h; rawTextsUsed := rawTextsUsed h ++ [text];
     sessions := sessions h |}.

Definition push_session (r : SessionRecord) (h : HistoryData) : HistoryData :=
  {| openAiApiKey := openAiApiKey h; rawTextsUsed := rawTextsUsed h;
     sessions := sessions h ++ [r] |}.

(** [try { x = body } catch (err) { ...; return }], the handler left to the
    caller. *)
Definition attempt {A} (body : M A) : M (exn + A) :=
  try_catch (a ← body; mret (inr a)) (fun err => mret (inl err)).

Definition system_message : AIMessage :=
  {| role := system;
     content := "You are a helpful assistant that compares two files and provides insights." |}.

(** The template literal of the user message. *)
Definition user_content (fileContent1 fileContent2 taskPrompt : string) : string :=
  "
I have two files.

File 1 Content:
" ++ fileContent1 ++ "

File 2 Content:
" ++ fileContent2 ++ "

Task: " ++ (if truthy taskPrompt then taskPrompt else "Compare and analyze the differences.") ++ "
".

(** [main] *)
Definition main : M unit :=
  console_log [Str ("Welcome to the File Comparison + LLM CLI!" ++ nl)];;
  (* 1) Load existing history *)
  history ← loadHistory ≫= as_HistoryData;
  (* 2) Check for OpenAI API key, prompt if missing *)
  history ←
    (if negb (truthy_opt (openAiApiKey history)) then
       apiKey ← prompt_input "apiKey" "Please enter your OpenAI API key:";
       let history := set_openAiApiKey (trim apiKey) history in
       saveHistory history;;
       mret history
     else mret history);
  (* 3) Initialize OpenAI client with stored key *)
  initializeClient (openAiApiKey history);;
  (* 4) Either pick from existing raw texts or enter a new one *)
  let rawTextChoices :=
    match rawTextsUsed history with
    | [] => [Item "Enter new text"]
    | _ => map Item (rawTextsUsed history) ++ [Separator; Item "Enter new text"]
    end in
  selectedOrNew ← prompt_list "selectedOrNew" "Select step or enter a new one:" rawTextChoices;
  '(selectorText, history) ←
    (if String.eqb selectedOrNew "Enter new text" then
       newSelectorText ← prompt_input "newSelectorText" "Enter the raw text for this step:";
       let selectorText := newSelectorText in
       (* Save new text to history if it's non-empty *)
       if truthy (trim selectorText)
       then mret (selectorText, push_rawText selectorText history)
       else mret (selectorText, history)
     else mret (selectedOrNew, history));
  (* 5) Prompt for file paths and optional prompt *)
  filePath1 ← prompt_input "filePath1" "Enter the absolute path of the first file:";
  filePath2 ← prompt_input "filePath2" "Enter the absolute path of the second file:";
  taskPrompt ← prompt_input "taskPrompt"
                 "(Optional) Enter the LLM task or prompt (press enter to skip):";
  (* 6) Read file contents *)
  resolve ← ask path_resolve;
  read1 ← attempt (readFileSync (resolve filePath1));
  match read1 with
  | inl err => console_error [Str "Could not read first file:"; Exn err]
  | inr fileContent1 =>
  read2 ← attempt (readFileSync (resolve filePath2));
  match read2 with
  | inl err => console_error [Str "Could not read second file:"; Exn err]
  | inr fileContent2 =>
  (* 7) Prepare conversation for the LLM (omitting the selectorText) *)
  let conversation :=
    {| messages :=
         [system_message;
          {| role := user; content := user_content fileContent1 fileContent2 taskPrompt |}] |} in
  (* 8) Call the LLM with streaming response *)
  console_log [Str (nl ++ "--- LLM Response (streaming) ---" ++ nl)];;
  sent ← attempt (sendMessageToChatGPTWithStream conversation (Some "gpt-4o-mini")
                    (Some (7 # 10)%Q));
  match sent with
  | inl error => console_error [Str (nl ++ "Error calling LLM:"); Exn error]
  | inr response =>
  (* 9) Print final response again *)
  console_log [Str (nl ++ nl ++ "--- LLM Response (complete) ---" ++ nl); Str response];;
  (* 10) Save entire session to history *)
  let newSessionId := (Z.of_nat (length (sessions history)) + 1)%Z in
  today ← ask now;
  let history :=
    push_session
      {| id := newSessionId;
         selectorText := selectorText;
         filePath1 := filePath1;
         filePath2 := filePath2;
         taskPrompt := taskPrompt;
         timestamp := Date.toISOString today |}
      history in
  (* 11) Write updated history *)
  saveHistory history;;
  console_log [Str (nl ++ "Session saved. Goodbye!")]
  end end end.

(** * Vocabulary of the statements *)

(** ** Streaming *)

Definition has_choice (e : OpenAI.ChatCompletionChunk) : bool :=
  match OpenAI.choices e with
  | [] => false
  | _ :: _ => true
  end.

(** The content delta of the first choice of an event, when the event has
    a choice and the delta is a non-empty string. *)
Definition first_delta (e : OpenAI.ChatCompletionChunk) : option string :=
  match OpenAI.choices e with
  | [] => None
  | c :: _ =>
      match OpenAI.content (OpenAI.delta c) with
      | Some d => if truthy d then Some d else None
      | None => None
      end
  end.

Definition deltas (completion : list OpenAI.ChatCompletionChunk) : list string :=
  omap first_delta completion.

(** The events up to the first one that has no choice. *)
Fixpoint delivered (completion : list OpenAI.ChatCompletionChunk)
    : list OpenAI.ChatCompletionChunk :=
  match completion with
  | [] => []
  | e :: rest => if has_choice e then e :: delivered rest else []
  end.

Definition concat (parts : list string) : string :=
  foldr String.append EmptyString parts.

(** The body [sendMessageToChatGPTWithStream] sends. *)
Definition request_body (conversation : CurrentAIConversation) (model : option string)
    (temperature : option Q) : OpenAI.request :=
  {| OpenAI.messages := messages conversation;
     OpenAI.model := default "gpt-4o-mini" model;
     OpenAI.temperature := temperature;
     OpenAI.stream := true |}.

(** The requests among some events. *)
Definition requests (evs : list event) : list OpenAI.request :=
  omap (fun e => match e with requested _ r => Some r | _ => None end) evs.

(** ** The values of JSON *)

Module JSONDomain.

(** Number of nodes below the root, counting each element once more: the
    fuel [parse_value] needs. *)
Fixpoint size (v : json) : nat :=
  match v with
  | JArr items => S (list_sum (map (fun x => S (size x)) items))
  | JObj members => S (list_sum (map (fun kv => S (size (snd kv))) members))
  | _ => 0
  end.

Fixpoint distinct (keys : list string) : bool :=
  match keys with
  | [] => true
  | k :: rest => negb (existsb (String.eqb k) rest) && distinct rest
  end.

(** The values [JSON.stringify] and [JSON.parse] are modelled on: numbers
    are safe integers, the names of an object differ from each other and
    none is made of digits. *)
Fixpoint wf (v : json) : bool :=
  match v with
  | JNum n => safe_integer n
  | JArr items => forallb wf items
  | JObj members =>
      forallb (fun kv => negb (index_like (fst kv)) && wf (snd kv)) members
      && distinct (map fst members)
  | _ => true
  end.

Definition spaces (t : text) : bool := forallb (Ascii.eqb " ") t.

(** What may follow a value in a serialised text. *)
Definition terminated (r : text) : bool :=
  match r with
  | [] => true
  | c :: _ =>
      Ascii.eqb c "," || Ascii.eqb c "]" || Ascii.eqb c "}" || Ascii.eqb c "010"
  end.

Definition is_digit (c : ascii) : bool :=
  match digit_of c with
  | Some _ => true
  | None => false
  end.

Definition number_start (c : ascii) : bool := Ascii.eqb c "-" || is_digit c.

Definition value_start (c : ascii) : bool :=
  negb (is_ws c) && negb (Ascii.eqb c "]").

Definition elems (gap ind : text) (items : list json) : text :=
  join (","%char :: newline gap ind) (map (serialize gap ind) items).

Definition member (gap ind : text) (kv : string * json) : text :=
  quote (fst kv) ++ colon gap ++ serialize gap ind (snd kv).

Definition membs (gap ind : text) (members : list (string * json)) : text :=
  join (","%char :: newline gap ind) (map (member gap ind) members).

Definition elems_size (items : list json) : nat :=
  list_sum (map (fun x => S (size x)) items).

Definition membs_size (members : list (string * json)) : nat :=
  list_sum (map (fun kv => S (size (snd kv))) members).

Definition value_ok (gap : text) (fuel : nat) : Prop :=
  forall v ind r,
    size v < fuel -> wf v = true -> spaces ind = true -> terminated r = true ->
    parse_value fuel (serialize gap ind v ++ r) = Ok (v, r).

Definition elements_ok (gap : text) (fuel : nat) : Prop :=
  forall items x ind back r,
    elems_size (x :: items) < fuel -> forallb wf (x :: items) = true ->
    spaces ind = true -> spaces back = true ->
    parse_elements fuel (elems gap ind (x :: items) ++ newline gap back ++ "]"%char :: r)
      = Ok (x :: items, r).

Definition members_ok (gap : text) (fuel : nat) : Prop :=
  forall members kv ind back r,
    membs_size (kv :: members) < fuel ->
    forallb (fun kv => wf (snd kv)) (kv :: members) = true ->
    spaces ind = true -> spaces back = true ->
    parse_members fuel (membs gap ind (kv :: members) ++ newline gap back ++ "}"%char :: r)
      = Ok (kv :: members, r).

End JSONDomain.

(** ** Stores and runs *)

(** A store is well formed when its session identifiers are numbers that
    JavaScript holds exactly. *)
Definition wf_history (h : HistoryData) : bool :=
  forallb (fun r => safe_integer (id r)) (sessions h).

Definition sentinel : string := "Enter new text".

(** The entries of the list question (step 4). *)
Definition rawTextChoices (h : HistoryData) : list choice :=
  match rawTextsUsed h with
  | [] => [Item sentinel]
  | _ => map Item (rawTextsUsed h) ++ [Separator; Item sentinel]
  end.

(** The store once step 2 has seen to the key. *)
Definition with_key (env : Env) (h : HistoryData) : HistoryData :=
  if truthy_opt (openAiApiKey h) then h
  else set_openAiApiKey (trim (typed env "apiKey")) h.

(** The files once step 2 has seen to the key: the history file is written
    when the key had to be asked for, and only then. *)
Definition files_with_key (env : Env) (s : State) (h : HistoryData) : gmap string string :=
  if truthy_opt (openAiApiKey h) then files s
  else <[HISTORY_FILE env := JSON.stringify (json_of_history (with_key env h)) 2]> (files s).

(** The selector text of the session and the store after step 4, for the
    entry picked in the list. *)
Definition selector_of (env : Env) (selected : string) : string :=
  if String.eqb selected sentinel then typed env "newSelectorText" else selected.

Definition store_selected (env : Env) (selected : string) (h : HistoryData) : HistoryData :=
  if String.eqb selected sentinel then
    if truthy (trim (typed env "newSelectorText"))
    then push_rawText (typed env "newSelectorText") h
    else h
  else h.

(** The same surroundings with a user who picks the entry at [i] and types
    [text] when asked for a new text. *)
Definition with_selector (i : nat) (text : string) (env : Env) : Env :=
  {| HISTORY_FILE := HISTORY_FILE env;
     path_resolve := path_resolve env;
     typed := fun name =>
       if String.eqb name "newSelectorText" then text else typed env name;
     picked := i;
     completions_create := completions_create env;
     now := now env;
     read_error := read_error env;
     write_error := write_error env |}.

(** The conversation of step 7. *)
Definition conversation_of (fileContent1 fileContent2 taskPrompt : string)
    : CurrentAIConversation :=
  {| messages :=
       [system_message;
        {| role := user; content := user_content fileContent1 fileContent2 taskPrompt |}] |}.

(** The record of step 10. *)
Definition session_of (env : Env) (selected : string) (h : HistoryData) : SessionRecord :=
  {| id := Z.of_nat (length (sessions h)) + 1;
     selectorText := selector_of env selected;
     filePath1 := typed env "filePath1";
     filePath2 := typed env "filePath2";
     taskPrompt := typed env "taskPrompt";
     timestamp := Date.toISOString (now env) |}.

(** What has been shown and asked when the files are about to be read. *)
Definition events_before_reads (h : HistoryData) (selected : string) : list event :=
  console_log_ev [Str ("Welcome to the File Comparison + LLM CLI!" ++ nl)]
  :: (if truthy_opt (openAiApiKey h) then [] else [asked "Please enter your OpenAI API key:"])
  ++ asked "Select step or enter a new one:"
  :: (if String.eqb selected sentinel then [asked "Enter the raw text for this step:"] else [])
  ++ [asked "Enter the absolute path of the first file:";
      asked "Enter the absolute path of the second file:";
      asked "(Optional) Enter the LLM task or prompt (press enter to skip):"].

(** The process when the files are about to be read: set up, the
    questions asked. *)
Definition at_reads (env : Env) (s : State) (h : HistoryData) (key selected : string)
    : State :=
  {| files := files_with_key env s h;
     read_only := read_only s;
     openai := Some {| OpenAI.apiKey := key |};
     trace := trace s ++ events_before_reads h selected |}.

Definition streaming_banner : event :=
  console_log_ev [Str (nl ++ "--- LLM Response (streaming) ---" ++ nl)].

Definition complete_banner (response : string) : event :=
  console_log_ev [Str (nl ++ nl ++ "--- LLM Response (complete) ---" ++ nl); Str response].

Definition goodbye : event := console_log_ev [Str (nl ++ "Session saved. Goodbye!")].

(** The request of step 8. *)
Definition llm_body (fileContent1 fileContent2 taskPrompt : string) : OpenAI.request :=
  request_body (conversation_of fileContent1 fileContent2 taskPrompt)
    (Some "gpt-4o-mini") (Some (7 # 10)%Q).

(** The store that step 11 writes. *)
Definition store_recorded (env : Env) (selected : string) (h : HistoryData) : HistoryData :=
  push_session (session_of env selected (store_selected env selected h))
    (store_selected env selected h).

(** Steps 6 to 11, from the process [at] that step 5 leaves. *)
Definition outcome (env : Env) (at_ : State) (key selected : string) (h : HistoryData)
    : result unit * State :=
  let task := typed env "taskPrompt" in
  let path1 := path_resolve env (typed env "filePath1") in
  let path2 := path_resolve env (typed env "filePath2") in
  match files at_ !! path1 with
  | None =>
      (Ok tt,
       add_trace [console_error_ev [Str "Could not read first file:";
                                    Exn (read_error env path1)]] at_)
  | Some f1 =>
  match files at_ !! path2 with
  | None =>
      (Ok tt,
       add_trace [console_error_ev [Str "Could not read second file:";
                                    Exn (read_error env path2)]] at_)
  | Some f2 =>
  let sent := requested {| OpenAI.apiKey := key |} (llm_body f1 f2 task) in
  match completions_create env {| OpenAI.apiKey := key |} (llm_body f1 f2 task) with
  | inl err =>
      (Ok tt,
       add_trace [streaming_banner; sent; console_log_ev [Exn err];
                  console_error_ev [Str (nl ++ "Error calling LLM:");
                                    Exn (Error "Error in stream")]] at_)
  | inr completion =>
      if forallb has_choice completion then
        let shown :=
          streaming_banner :: sent :: map stdout_write_ev (deltas completion)
            ++ [complete_banner (concat (deltas completion))] in
        if read_only at_
        then (Throw (write_error env (HISTORY_FILE env)), add_trace shown at_)
        else
          (Ok tt,
           add_trace (shown ++ [goodbye])
             (set_file (HISTORY_FILE env)
                (JSON.stringify (json_of_history (store_recorded env selected h)) 2) at_))
      else
        (Ok tt,
         add_trace (streaming_banner :: sent
                    :: map stdout_write_ev (deltas (delivered completion))
                    ++ [console_error_ev [Str (nl ++ "Error calling LLM:");
                                          Exn TypeError]]) at_)
  end end end.

(** ** What a computation leaves alone *)

(** The process [s'] is [s] some steps later: no file but the history file
    has been written, the disk takes writes as it did, and what had been
    shown is still there, first. *)
Definition untouched (env : Env) (s s' : State) : Prop :=
  read_only s' = read_only s /\
  (forall path, path <> HISTORY_FILE env -> files s' !! path = files s !! path) /\
  exists evs, trace s' = trace s ++ evs.

(** A computation that keeps to this from every process, and throws no
    error outside [E]. *)
Definition confined {A} (E : Env -> exn -> Prop) (m : M A) : Prop :=
  forall env s,
    untouched env s (snd (m env s)) /\
    forall e, fst (m env s) = Throw e -> E env e.

Definition no_error : Env -> exn -> Prop := fun _ _ => False.

Definition any_error : Env -> exn -> Prop := fun _ _ => True.

(** The error of a refused write of the history file. *)
Definition write_failure : Env -> exn -> Prop :=
  fun env e => e = write_error env (HISTORY_FILE env).

(** The errors of [sendMessageToChatGPTWithStream]. *)
Definition stream_failure : Env -> exn -> Prop :=
  fun _ e =>
    e = Error "OpenAI not initialized" \/ e = Error "Error in stream" \/ e = TypeError.

(** The errors of [main]. *)
Definition escaping : Env -> exn -> Prop :=
  fun env e =>
    e = Error "Failed to initiate OpenAI Client" \/ e = write_error env (HISTORY_FILE env).

(** What some events write to standard output, what they ask and what they
    report with [console.error]. *)
Definition written (evs : list event) : list string :=
  omap (fun e => match e with stdout_write_ev chunk => Some chunk | _ => None end) evs.

Definition questions (evs : list event) : list string :=
  omap (fun e => match e with asked message => Some message | _ => None end) evs.

Definition diagnostics (evs : list event) : list (list arg) :=
  omap (fun e => match e with console_error_ev args => Some args | _ => None end) evs.

(** The clients that sent a request. *)
Definition senders (evs : list event) : list OpenAI.client :=
  omap (fun e => match e with requested c _ => Some c | _ => None end) evs.

(** The sessions of a store are numbered 1, 2, ... in their order. *)
Definition ids_in_order (h : HistoryData) : Prop :=
  map id (sessions h) = map Z.of_nat (seq 1 (length (sessions h))).

(** The questions of steps 2 to 5, for a store [h] as loaded and the entry
    picked. *)
Definition questions_of_run (h : HistoryData) (selected : string) : list string :=
  (if truthy_opt (openAiApiKey h) then [] else ["Please enter your OpenAI API key:"])
  ++ "Select step or enter a new one:"
  :: (if String.eqb selected sentinel then ["Enter the raw text for this step:"] else [])
  ++ ["Enter the absolute path of the first file:";
      "Enter the absolute path of the second file:";
      "(Optional) Enter the LLM task or prompt (press enter to skip):"].

(** The same surroundings with another provider, and with another answer
    typed at the question of a name. *)
Definition with_provider
    (provider : OpenAI.client -> OpenAI.request -> exn + list OpenAI.ChatCompletionChunk)
    (env : Env) : Env :=
  {| HISTORY_FILE := HISTORY_FILE env;
     path_resolve := path_resolve env;
     typed := typed env;
     picked := picked env;
     completions_create := provider;
     now := now env;
     read_error := read_error env;
     write_error := write_error env |}.

Definition with_typed (name text : string) (env : Env) : Env :=
  {| HISTORY_FILE := HISTORY_FILE env;
     path_resolve := path_resolve env;
     typed := fun n => if String.eqb n name then text else typed env n;
     picked := picked env;
     completions_create := completions_create env;
     now := now env;
     read_error := read_error env;
     write_error := write_error env |}.

(** The error [main] reports at step 8, when the call fails: the one that
    stands for a rejected request, or the [TypeError] of an event without
    a choice. *)
Definition llm_failure (answer : exn + list OpenAI.ChatCompletionChunk) : option exn :=
  match answer with
  | inl _ => Some (Error "Error in stream")
  | inr completion => if forallb has_choice completion then None else Some TypeError
  end.

Definition welcome : event :=
  console_log_ev [Str ("Welcome to the File Comparison + LLM CLI!" ++ nl)].

(** ** Sample worlds *)

Module Sample.

Definition chunk (content : option string) : OpenAI.ChatCompletionChunk :=
  {| OpenAI.choices := [ {| OpenAI.delta := {| OpenAI.content := content |} |} ] |}.

Definition no_choice : OpenAI.ChatCompletionChunk := {| OpenAI.choices := [] |}.

Definition hello : list OpenAI.ChatCompletionChunk :=
  [chunk (Some "He"); chunk (Some "llo"); chunk (Some EmptyString); chunk None;
   chunk (Some " world")].

Definition env (completion : list OpenAI.ChatCompletionChunk) : Env :=
  {| HISTORY_FILE := "/app/dist/.cli-history.json";
     path_resolve := fun p => ("/work/" ++ p)%string;
     typed := fun name =>
       if String.eqb name "apiKey" then "  sk-test "
       else if String.eqb name "newSelectorText" then " demo "
       else if String.eqb name "filePath1" then "foo.txt"
       else if String.eqb name "filePath2" then "bar.txt"
       else EmptyString;
     picked := 0;
     completions_create := fun _ _ => inr completion;
     now := 1700000000000%Z;
     read_error := fun _ => SystemError "ENOENT";
     write_error := fun _ => SystemError "EROFS" |}.

Definition client : OpenAI.client := {| OpenAI.apiKey := "sk-test" |}.

(** A process whose client is initialised and whose disk holds the given
    files. *)
Definition started (fs : gmap string string) : State :=
  {| files := fs; read_only := false; openai := Some client; trace := [] |}.

(** A process at its start. *)
Definition fresh (fs : gmap string string) : State :=
  {| files := fs; read_only := false; openai := None; trace := [] |}.

Definition question : CurrentAIConversation :=
  {| messages := [ {| role := user; content := "Hi" |} ] |}.

End Sample.

Module Worlds.

(** The two input files. *)
Definition inputs : gmap string string :=
  <["/work/foo.txt" := "alpha"]> (<["/work/bar.txt" := "beta"]> ∅).

(** A store with a key, one reusable text and two sessions. *)
Definition store : HistoryData :=
  {| openAiApiKey := Some "sk-test";
     rawTextsUsed := ["demo"];
     sessions :=
       [ {| id := 1; selectorText := "demo"; filePath1 := "a.txt"; filePath2 := "b.txt";
            taskPrompt := EmptyString; timestamp := "2023-11-14T22:13:20.000Z" |};
         {| id := 2; selectorText := "demo"; filePath1 := "c.txt"; filePath2 := "d.txt";
            taskPrompt := "Summarise"; timestamp := "2023-11-15T08:00:00.000Z" |} ] |}.

Definition history_path : string := "/app/dist/.cli-history.json".

(** The disk of a second run: the inputs and the history file that holds
    [store]. *)
Definition disk : gmap string string :=
  <[history_path := JSON.stringify (json_of_history store) 2]> inputs.

(** The user of [Sample.env] picking the entry at [i]. *)
Definition user (i : nat) : Env :=
  {| HISTORY_FILE := history_path;
     path_resolve := path_resolve (Sample.env Sample.hello);
     typed := typed (Sample.env Sample.hello);
     picked := i;
     completions_create := completions_create (Sample.env Sample.hello);
     now := now (Sample.env Sample.hello);
     read_error := read_error (Sample.env Sample.hello);
     write_error := write_error (Sample.env Sample.hello) |}.

(** The same user typing only spaces as the new text. *)
Definition blank_user : Env :=
  {| HISTORY_FILE := history_path;
     path_resolve := path_resolve (user 0);
     typed := fun name =>
       if String.eqb name "newSelectorText" then "   " else typed (user 0) name;
     picked := 0;
     completions_create := completions_create (user 0);
     now := now (user 0);
     read_error := read_error (user 0);
     write_error := write_error (user 0) |}.

End Worlds.

Module Trouble.

(** A provider that rejects every request. *)
Definition rejecting : Env :=
  with_provider (fun _ _ => inl (Error "429 Too Many Requests")) (Worlds.user 0).

(** A provider whose second event has no choice. *)
Definition choiceless : Env :=
  with_provider
    (fun _ _ => inr [Sample.chunk (Some "He"); Sample.no_choice; Sample.chunk (Some "llo")])
    (Worlds.user 0).

(** A user who types only spaces as the key. *)
Definition blank_key : Env := with_typed "apiKey" "   " (Worlds.user 0).

(** A process at its start on a disk that refuses writes. *)
Definition locked (fs : gmap string string) : State :=
  {| files := fs; read_only := true; openai := None; trace := [] |}.


End Trouble.

(** * Verification *)

(** ** General facts *)

Lemma append_nil_r (s : string) : (s ++ EmptyString)%string = s.
Proof.
  induction s as [|c s IH]; [reflexivity|].
  change (String c (s ++ EmptyString) = String c s). now rewrite IH.
Qed.

Lemma append_assoc (a b c : string) : ((a ++ b) ++ c)%string = (a ++ b ++ c)%string.
Proof.
  induction a as [|x a IH]; [reflexivity|].
  change (String x ((a ++ b) ++ c) = String x (a ++ b ++ c)). now rewrite IH.
Qed.

Lemma add_trace_nil (s : State) : add_trace [] s = s.
Proof. destruct s; unfold add_trace; simpl. now rewrite app_nil_r. Qed.

Lemma add_trace_add_trace (a b : list event) (s : State) :
  add_trace b (add_trace a s) = add_trace (a ++ b) s.
Proof. unfold add_trace; simpl. now rewrite app_assoc. Qed.

(** ** The streaming loop *)

Lemma delivered_all completion :
  forallb has_choice completion = true -> delivered completion = completion.
Proof.
  induction completion as [|e rest IH]; simpl; [reflexivity|].
  destruct (has_choice e); simpl; [|discriminate].
  intros H. now rewrite IH.
Qed.

Lemma deltas_cons e rest :
  deltas (e :: rest) =
    match first_delta e with
    | Some d => d :: deltas rest
    | None => deltas rest
    end.
Proof. reflexivity. Qed.

Lemma for_await_run completion : forall message env s,
  for_await completion message env s =
    (if forallb has_choice completion
     then Ok (message ++ concat (deltas completion))%string
     else Throw TypeError,
     add_trace (map stdout_write_ev (deltas (delivered completion))) s).
Proof.
  induction completion as [|e rest IH]; intros message env s.
  - simpl. now rewrite append_nil_r, add_trace_nil.
  - cbn [for_await forallb delivered].
    destruct (OpenAI.choices e) as [|c cs] eqn:Hch.
    + assert (has_choice e = false) as -> by (unfold has_choice; now rewrite Hch).
      simpl. now rewrite add_trace_nil.
    + assert (has_choice e = true) as -> by (unfold has_choice; now rewrite Hch).
      rewrite !deltas_cons. unfold first_delta. rewrite Hch.
      destruct (OpenAI.content (OpenAI.delta c)) as [d|]; [destruct (truthy d)|];
        try apply IH.
      unfold mbind, M_bind, stdout_write, emit. rewrite IH, add_trace_add_trace.
      cbn [andb map concat foldr app]. now rewrite append_assoc.
Qed.

Lemma send_run conversation model temperature env s handle completion :
  openai s = Some handle ->
  completions_create env handle (request_body conversation model temperature)
    = inr completion ->
  sendMessageToChatGPTWithStream conversation model temperature env s =
    (if forallb has_choice completion
     then Ok (concat (deltas completion))
     else Throw TypeError,
     add_trace (requested handle (request_body conversation model temperature)
                  :: map stdout_write_ev (deltas (delivered completion))) s).
Proof.
  intros Hc Hr.
  unfold sendMessageToChatGPTWithStream, mbind, M_bind, get; simpl. rewrite Hc.
  unfold try_catch, chat_completions_create, mbind, M_bind, emit, ask; simpl.
  fold (request_body conversation model temperature). rewrite Hr.
  unfold mret, M_ret. rewrite for_await_run, add_trace_add_trace. reflexivity.
Qed.

(** ** The history store: loading *)

(** C1, as the code has it: [loadHistory] never throws and leaves the
    process as it is; it returns the default store when the history file
    cannot be read and when its text is not JSON, and otherwise the parsed
    value as it is, whatever its shape. *)
Theorem loadHistory_never_throws env s :
  snd (loadHistory env s) = s /\
  fst (loadHistory env s) =
    match files s !! HISTORY_FILE env with
    | None => Ok (literal defaultHistory)
    | Some data =>
        match JSON.parse data with
        | Ok v => Ok (parsed v)
        | Throw _ => Ok (literal defaultHistory)
        | NotModelled => NotModelled
        end
    end /\
  forall e, fst (loadHistory env s) <> Throw e.
Proof.
  unfold loadHistory, try_catch, mbind, M_bind, ask, readFileSync, lift, mret, M_ret.
  destruct (files s !! HISTORY_FILE env) as [data|]; simpl.
  - destruct (JSON.parse data); simpl; repeat split; congruence.
  - repeat split; congruence.
Qed.

(** C1 fails for a file whose text is JSON of another shape: the empty
    object and a number come back unchanged instead of the default store. *)
Lemma loadHistory_keeps_wrong_shape :
  let load text :=
    fst (loadHistory (Sample.env []) (Sample.fresh {[ "/app/dist/.cli-history.json" := text ]})) in
  load "{}" = Ok (parsed (JObj [])) /\ history_of_json (JObj []) = None /\
  load "42" = Ok (parsed (JNum 42)) /\ history_of_json (JNum 42) = None /\
  load "{}" <> Ok (literal defaultHistory) /\
  load "42" <> Ok (literal defaultHistory).
Proof. vm_compute. repeat split; congruence. Qed.

(** ** The client *)

(** C8: [initializeClient] throws exactly for an absent or an empty key;
    for any other key it installs and returns a handle bound to that key,
    and does nothing else: no request goes out, no event is left. *)
Theorem initializeClient_checks_presence_only apiKey env s :
  match apiKey with
  | None | Some EmptyString =>
      initializeClient apiKey env s =
        (Throw (Error "Failed to initiate OpenAI Client"), s)
  | Some key =>
      initializeClient apiKey env s =
        (Ok (Some {| OpenAI.apiKey := key |}), set_client {| OpenAI.apiKey := key |} s)
      /\ trace (snd (initializeClient apiKey env s)) = trace s
      /\ files (snd (initializeClient apiKey env s)) = files s
  end.
Proof. destruct apiKey as [[|c key]|]; repeat split; reflexivity. Qed.

(** ** Streaming *)

(** Only non-empty strings are accumulated. *)
Lemma deltas_non_empty completion :
  Forall (fun d => d <> EmptyString) (deltas completion).
Proof.
  induction completion as [|e rest IH]; [constructor|].
  rewrite deltas_cons. unfold first_delta.
  destruct (OpenAI.choices e) as [|c cs]; [exact IH|].
  destruct (OpenAI.content (OpenAI.delta c)) as [d|]; [|exact IH].
  destruct (truthy d) eqn:Hd; [|exact IH].
  constructor; [|exact IH]. intros ->. discriminate.
Qed.

Lemma forallb_has_choice completion :
  forallb has_choice completion = true <->
  Forall (fun e => OpenAI.choices e <> []) completion.
Proof.
  rewrite forallb_forall, List.Forall_forall. unfold has_choice.
  split; intros H e He; specialize (H e He); destruct (OpenAI.choices e); congruence.
Qed.

(** C2, as the code has it: once the client is initialised and the request
    accepted, a stream in which every event carries a choice makes
    [sendMessageToChatGPTWithStream] return the concatenation, in arrival
    order, of the non-empty content deltas of the first choices; exactly
    these are written to standard output, in that order, after the request
    went out. *)
Theorem stream_accumulates_deltas conversation model temperature env s handle completion :
  openai s = Some handle ->
  completions_create env handle (request_body conversation model temperature)
    = inr completion ->
  Forall (fun e => OpenAI.choices e <> []) completion ->
  sendMessageToChatGPTWithStream conversation model temperature env s =
    (Ok (concat (deltas completion)),
     add_trace (requested handle (request_body conversation model temperature)
                  :: map stdout_write_ev (deltas completion)) s)
  /\ Forall (fun d => d <> EmptyString) (deltas completion).
Proof.
  intros Hc Hr Hall. apply forallb_has_choice in Hall.
  rewrite (send_run _ _ _ _ _ _ _ Hc Hr), Hall, (delivered_all _ Hall).
  split; [reflexivity | apply deltas_non_empty].
Qed.

Lemma stream_accumulates_deltas_witness :
  sendMessageToChatGPTWithStream Sample.question None None
    (Sample.env Sample.hello) (Sample.started ∅) =
    (Ok "Hello world",
     add_trace [requested Sample.client (request_body Sample.question None None);
                stdout_write_ev "He"; stdout_write_ev "llo"; stdout_write_ev " world"]
       (Sample.started ∅)).
Proof.
  apply (stream_accumulates_deltas Sample.question None None
           (Sample.env Sample.hello) (Sample.started ∅) Sample.client Sample.hello).
  - reflexivity.
  - reflexivity.
  - repeat constructor; discriminate.
Defined.

(** C2 fails on a stream with an event that has no choice: nothing is
    returned, the call throws. *)
Lemma stream_without_choice_not_accumulated :
  let run :=
    sendMessageToChatGPTWithStream Sample.question None None
      (Sample.env [Sample.chunk (Some "He"); Sample.no_choice; Sample.chunk (Some "llo")])
      (Sample.started ∅) in
  fst run = Throw TypeError /\
  fst run <> Ok (concat (deltas [Sample.chunk (Some "He"); Sample.no_choice;
                                 Sample.chunk (Some "llo")])).
Proof. split; [reflexivity | discriminate]. Qed.

(** C9: with the client initialised and the request accepted, an event
    without a choice makes the call throw a [TypeError] (the events before
    it have been written out, the later ones are not looked at), and the
    call returns exactly when every event carries a choice. *)
Theorem first_choice_unchecked conversation model temperature env s handle completion :
  openai s = Some handle ->
  completions_create env handle (request_body conversation model temperature)
    = inr completion ->
  let run := sendMessageToChatGPTWithStream conversation model temperature env s in
  (Exists (fun e => OpenAI.choices e = []) completion -> fst run = Throw TypeError) /\
  ((exists message, fst run = Ok message) <->
     Forall (fun e => OpenAI.choices e <> []) completion) /\
  snd run =
    add_trace (requested handle (request_body conversation model temperature)
                 :: map stdout_write_ev (deltas (delivered completion))) s.
Proof.
  intros Hc Hr run. unfold run. rewrite (send_run _ _ _ _ _ _ _ Hc Hr). simpl.
  rewrite <- forallb_has_choice.
  destruct (forallb has_choice completion) eqn:Hall.
  - split; [|split; [|reflexivity]].
    + intros Hex. apply forallb_has_choice in Hall.
      rewrite List.Forall_forall in Hall. apply List.Exists_exists in Hex as (e & He & Hnil).
      now destruct (Hall e He).
    + split; [reflexivity | intros _; eauto].
  - split; [reflexivity|]. split; [|reflexivity].
    split; [intros [m Hm]; discriminate | discriminate].
Qed.

Lemma first_choice_unchecked_witness :
  let run :=
    sendMessageToChatGPTWithStream Sample.question None None
      (Sample.env [Sample.chunk (Some "He"); Sample.no_choice; Sample.chunk (Some "llo")])
      (Sample.started ∅) in
  fst run = Throw TypeError /\
  trace (snd run) =
    [requested Sample.client (request_body Sample.question None None);
     stdout_write_ev "He"].
Proof.
  pose proof (first_choice_unchecked Sample.question None None
    (Sample.env [Sample.chunk (Some "He"); Sample.no_choice; Sample.chunk (Some "llo")])
    (Sample.started ∅) Sample.client
    [Sample.chunk (Some "He"); Sample.no_choice; Sample.chunk (Some "llo")]
    eq_refl eq_refl) as (Hthrow & _ & Htrace).
  split.
  - apply Hthrow. apply Exists_cons_tl, Exists_cons_hd. reflexivity.
  - rewrite Htrace. reflexivity.
Defined.

(** ** JSON: what is written is read back *)

Module JSONFacts.

Import JSONDomain.

Ltac ascii_cases c :=
  let b0 := fresh in let b1 := fresh in let b2 := fresh in let b3 := fresh in
  let b4 := fresh in let b5 := fresh in let b6 := fresh in let b7 := fresh in
  destruct c as [b0 b1 b2 b3 b4 b5 b6 b7];
  destruct b0, b1, b2, b3, b4, b5, b6, b7.

Lemma skip_ws_spaces ind r : spaces ind = true -> skip_ws (ind ++ r) = skip_ws r.
Proof.
  induction ind as [|c ind IH]; intros H; [reflexivity|].
  unfold spaces in H. cbn [forallb] in H. apply andb_prop in H as [Hc Hind].
  apply Ascii.eqb_eq in Hc. subst c. simpl. now apply IH.
Qed.

Lemma skip_ws_newline gap ind r :
  spaces ind = true -> skip_ws (newline gap ind ++ r) = skip_ws r.
Proof.
  intros H. destruct gap; simpl; [reflexivity | now apply skip_ws_spaces].
Qed.

Lemma skip_ws_start c r : value_start c = true -> skip_ws (c :: r) = c :: r.
Proof.
  unfold value_start. intros H. apply andb_prop in H as [H _].
  simpl. now destruct (is_ws c).
Qed.

Lemma terminated_newline gap ind c r :
  terminated [c] = true -> terminated (newline gap ind ++ c :: r) = true.
Proof. destruct gap; simpl; [tauto | reflexivity]. Qed.

(** *** Strings *)

Lemma parse_chars_escape_char c t :
  parse_chars (escape_char c ++ t) =
    rmap (fun p => (c :: fst p, snd p)) (parse_chars t).
Proof. ascii_cases c; reflexivity. Qed.

Lemma parse_chars_escape s r :
  parse_chars (escape s ++ "034"%char :: r) = Ok (s, r).
Proof.
  induction s as [|c s IH]; [reflexivity|].
  unfold escape in *. simpl. rewrite <- app_assoc, parse_chars_escape_char, IH.
  reflexivity.
Qed.

Lemma parse_chars_quote k r :
  parse_chars (tl (quote k) ++ r) = Ok (list_ascii_of_string k, r).
Proof.
  unfold quote. simpl. rewrite <- app_assoc. apply parse_chars_escape.
Qed.

(** *** Numbers *)

Lemma safe_integer_spec n :
  safe_integer n = true <-> (- MAX_SAFE_INTEGER <= n <= MAX_SAFE_INTEGER)%Z.
Proof. unfold safe_integer. rewrite andb_true_iff, !Z.leb_le. tauto. Qed.

Lemma uint_beq_refl u : Decimal.uint_beq u u = true.
Proof. induction u; simpl; auto. Qed.

Lemma terminated_no_digit r :
  terminated r = true -> read_digits r = (Decimal.Nil, r) /\ starts_fraction r = false.
Proof.
  destruct r as [|c r]; [split; reflexivity|]. simpl. intros H.
  repeat (apply orb_prop in H as [H|H]); apply Ascii.eqb_eq in H; subst c;
    split; reflexivity.
Qed.

Lemma read_digits_digits u r :
  read_digits r = (Decimal.Nil, r) -> read_digits (digits_of_uint u ++ r) = (u, r).
Proof.
  intros Hr. induction u; simpl; try (rewrite IHu; reflexivity). exact Hr.
Qed.

Lemma unorm_to_uint p : Decimal.unorm (Pos.to_uint p) = Pos.to_uint p.
Proof.
  rewrite <- DecimalN.Unsigned.to_of. unfold N.of_uint.
  now rewrite DecimalPos.Unsigned.of_to.
Qed.

Lemma digits_head u r :
  u <> Decimal.Nil ->
  exists c t, digits_of_uint u ++ r = c :: t /\ is_digit c = true.
Proof. destruct u; intros H; try contradiction; simpl; eauto. Qed.

Lemma digit_not_minus c : is_digit c = true -> Ascii.eqb c "-" = false.
Proof.
  intros H. destruct (Ascii.eqb_spec c "-") as [->|]; [discriminate | reflexivity].
Qed.

Lemma parse_unsigned p r :
  safe_integer (Zpos p) = true -> terminated r = true ->
  parse_number (digits_of_uint (Pos.to_uint p) ++ r) = Ok (Zpos p, r).
Proof.
  intros Hsafe Hr. apply terminated_no_digit in Hr as [Hd Hf].
  destruct (digits_head (Pos.to_uint p) r (DecimalPos.Unsigned.to_uint_nonnil p))
    as (c & t & Heq & Hc).
  unfold parse_number. rewrite Heq, (digit_not_minus c Hc), <- Heq.
  rewrite (read_digits_digits _ _ Hd).
  destruct (Pos.to_uint p) eqn:Hu;
    [now destruct (DecimalPos.Unsigned.to_uint_nonnil p)|..];
    rewrite <- Hu, unorm_to_uint, uint_beq_refl, Hf; cbn [negb andb];
    unfold N.of_uint; rewrite DecimalPos.Unsigned.of_to; cbn [Z.of_N];
    rewrite Hsafe; reflexivity.
Qed.

Lemma parse_number_print n r :
  safe_integer n = true -> terminated r = true ->
  parse_number (print_Z n ++ r) = Ok (n, r).
Proof.
  intros Hsafe Hr. destruct n as [|p|p].
  - apply terminated_no_digit in Hr as [Hd Hf].
    unfold parse_number, print_Z. simpl. rewrite Hd, Hf. reflexivity.
  - now apply parse_unsigned.
  - assert (safe_integer (Zpos p) = true) as Hpos.
    { apply safe_integer_spec. apply safe_integer_spec in Hsafe.
      unfold MAX_SAFE_INTEGER in *. lia. }
    pose proof (parse_unsigned p r Hpos Hr) as H.
    apply terminated_no_digit in Hr as [Hd Hf].
    destruct (digits_head (Pos.to_uint p) r (DecimalPos.Unsigned.to_uint_nonnil p))
      as (c & t & Heq & Hc).
    unfold parse_number in *. cbn [print_Z app]. cbn [Ascii.eqb Bool.eqb].
    rewrite Heq, (digit_not_minus c Hc), <- Heq in H.
    rewrite (read_digits_digits _ _ Hd) in *.
    destruct (Pos.to_uint p) eqn:Hu;
      [now destruct (DecimalPos.Unsigned.to_uint_nonnil p)|..];
      rewrite <- Hu in *; rewrite unorm_to_uint, uint_beq_refl, Hf in *;
      cbn [negb andb] in *; unfold N.of_uint in *;
      rewrite DecimalPos.Unsigned.of_to in *; cbn [Z.of_N Z.eqb] in *;
      rewrite Hpos; reflexivity.
Qed.

(** *** The first character of a value *)

Lemma digit_value_start c : is_digit c = true -> value_start c = true.
Proof.
  intros H. unfold value_start, is_ws.
  destruct (Ascii.eqb_spec c " ") as [->|]; [discriminate|].
  destruct (Ascii.eqb_spec c "009") as [->|]; [discriminate|].
  destruct (Ascii.eqb_spec c "010") as [->|]; [discriminate|].
  destruct (Ascii.eqb_spec c "013") as [->|]; [discriminate|].
  destruct (Ascii.eqb_spec c "]") as [->|]; [discriminate|].
  reflexivity.
Qed.

Lemma print_Z_head n r :
  exists c t, print_Z n ++ r = c :: t /\ number_start c = true /\ value_start c = true.
Proof.
  unfold number_start. destruct n as [|p|p]; simpl.
  - eauto.
  - destruct (digits_head (Pos.to_uint p) r (DecimalPos.Unsigned.to_uint_nonnil p))
      as (c & t & -> & Hc).
    exists c, t. rewrite Hc, orb_true_r. auto using digit_value_start.
  - eauto.
Qed.

Lemma serialize_head gap ind v r :
  exists c t, serialize gap ind v ++ r = c :: t /\ value_start c = true.
Proof.
  destruct v as [|[]|n|s|[|x items]|[|kv members]]; simpl; eauto.
  destruct (print_Z_head n r) as (c & t & -> & _ & Hc). eauto.
Qed.

Lemma number_start_other c :
  number_start c = true ->
  Ascii.eqb c "034" = false /\ Ascii.eqb c "[" = false /\ Ascii.eqb c "{" = false /\
  Ascii.eqb c "t" = false /\ Ascii.eqb c "f" = false /\ Ascii.eqb c "n" = false.
Proof.
  intros H.
  repeat split;
    match goal with
    | |- Ascii.eqb c ?x = false =>
        destruct (Ascii.eqb_spec c x) as [->|]; [discriminate | reflexivity]
    end.
Qed.

(** *** One step of the parser *)

Lemma parse_value_number fuel c t :
  number_start c = true ->
  parse_value (S fuel) (c :: t) = rmap (fun p => (JNum (fst p), snd p)) (parse_number (c :: t)).
Proof.
  intros H. destruct (number_start_other c H) as (H1 & H2 & H3 & H4 & H5 & H6).
  cbn [parse_value]. now rewrite H1, H2, H3, H4, H5, H6.
Qed.

Lemma parse_value_array fuel rest c t :
  skip_ws rest = c :: t -> value_start c = true ->
  parse_value (S fuel) ("["%char :: rest) =
    rmap (fun p => (JArr (fst p), snd p)) (parse_elements fuel (c :: t)).
Proof.
  intros H Hc. unfold value_start in Hc. apply andb_prop in Hc as [_ Hc].
  apply negb_true_iff in Hc. cbn [parse_value]. rewrite H, Hc. reflexivity.
Qed.

Lemma parse_value_object fuel rest t :
  skip_ws rest = "034"%char :: t ->
  parse_value (S fuel) ("{"%char :: rest) =
    rbind (parse_members fuel ("034"%char :: t)) (fun p =>
    rmap (fun o => (o, snd p)) (build_object (fst p))).
Proof. intros H. cbn [parse_value]. rewrite H. reflexivity. Qed.

(** *** Objects *)

Lemma obj_set_fresh k v m :
  existsb (String.eqb k) (map fst m) = false -> obj_set k v m = m ++ [(k, v)].
Proof.
  induction m as [|[k' v'] m IH]; simpl; [reflexivity|].
  intros H. apply orb_false_elim in H as [Hk Hm]. rewrite Hk. now rewrite IH.
Qed.

Lemma existsb_app_false {A} (f : A -> bool) l1 l2 :
  existsb f l1 = false -> existsb f l2 = false -> existsb f (l1 ++ l2) = false.
Proof. intros H1 H2. now rewrite existsb_app, H1, H2. Qed.

Lemma fold_obj_set members : forall acc,
  distinct (map fst members) = true ->
  forallb (fun kv => negb (existsb (String.eqb (fst kv)) (map fst acc))) members = true ->
  fold_left (fun m kv => obj_set (fst kv) (snd kv) m) members acc = acc ++ members.
Proof.
  induction members as [|[k v] members IH]; intros acc Hd Hacc; simpl.
  - now rewrite app_nil_r.
  - cbn [distinct map fst forallb] in Hd, Hacc.
    apply andb_prop in Hd as [Hk Hd]. apply andb_prop in Hacc as [Hkacc Hacc].
    apply negb_true_iff in Hk, Hkacc.
    rewrite (obj_set_fresh k v acc Hkacc), IH, <- app_assoc; [reflexivity | exact Hd |].
    apply forallb_forall. intros [k' v'] Hin. apply negb_true_iff.
    rewrite map_app. apply existsb_app_false.
    + rewrite forallb_forall in Hacc. specialize (Hacc _ Hin).
      now apply negb_true_iff in Hacc.
    + cbn [map fst existsb]. rewrite orb_false_r.
      destruct (String.eqb_spec k' k) as [->|]; [|reflexivity].
      rewrite <- Hk. symmetry. apply existsb_exists. exists k. split.
      * apply in_map_iff. now exists (k, v').
      * apply String.eqb_refl.
Qed.

Lemma build_object_distinct members :
  forallb (fun kv => negb (index_like (fst kv))) members = true ->
  distinct (map fst members) = true ->
  build_object members = Ok (JObj members).
Proof.
  intros Hi Hd. unfold build_object.
  assert (existsb (fun kv => index_like (fst kv)) members = false) as ->.
  { apply not_true_is_false. intros H. apply existsb_exists in H as (kv & Hin & Hkv).
    rewrite forallb_forall in Hi. specialize (Hi kv Hin). now rewrite Hkv in Hi. }
  rewrite fold_obj_set; [reflexivity | exact Hd |].
  apply forallb_forall. reflexivity.
Qed.

(** *** Values *)

Lemma serialize_array gap ind x items :
  serialize gap ind (JArr (x :: items)) =
    "["%char :: newline gap (ind ++ gap) ++ elems gap (ind ++ gap) (x :: items)
      ++ newline gap ind ++ ["]"%char].
Proof. reflexivity. Qed.

Lemma serialize_object gap ind kv members :
  serialize gap ind (JObj (kv :: members)) =
    "{"%char :: newline gap (ind ++ gap) ++ membs gap (ind ++ gap) (kv :: members)
      ++ newline gap ind ++ ["}"%char].
Proof. reflexivity. Qed.

Lemma elems_cons gap ind x y items :
  elems gap ind (x :: y :: items) =
    serialize gap ind x ++ ","%char :: newline gap ind ++ elems gap ind (y :: items).
Proof. reflexivity. Qed.

Lemma membs_cons gap ind kv kv' members :
  membs gap ind (kv :: kv' :: members) =
    member gap ind kv ++ ","%char :: newline gap ind ++ membs gap ind (kv' :: members).
Proof. reflexivity. Qed.

Lemma elems_head gap ind x items r :
  exists c t, elems gap ind (x :: items) ++ r = c :: t /\ value_start c = true.
Proof.
  destruct items as [|y items].
  - apply serialize_head.
  - rewrite elems_cons, <- app_assoc. apply serialize_head.
Qed.

Lemma membs_head gap ind kv members r :
  exists t, membs gap ind (kv :: members) ++ r = "034"%char :: t.
Proof.
  destruct members as [|kv' members]; [|rewrite membs_cons];
    unfold membs, member, quote; simpl; eauto.
Qed.

Lemma spaces_app a b : spaces a = true -> spaces b = true -> spaces (a ++ b) = true.
Proof. unfold spaces. intros Ha Hb. now rewrite forallb_app, Ha, Hb. Qed.

Section RoundTrip.

Variable gap : text.
Hypothesis gap_spaces : spaces gap = true.

Lemma skip_ws_close back c r :
  spaces back = true -> value_start c = true \/ c = "]"%char \/ c = "}"%char ->
  skip_ws (newline gap back ++ c :: r) = c :: r.
Proof.
  intros Hb Hc. rewrite skip_ws_newline by exact Hb.
  destruct Hc as [Hc|[->| ->]]; [now apply skip_ws_start | reflexivity..].
Qed.

Lemma elements_step fuel :
  value_ok gap fuel -> elements_ok gap fuel -> elements_ok gap (S fuel).
Proof.
  intros Hv He items x ind back r Hsize Hwf Hind Hback.
  cbn [forallb] in Hwf. apply andb_prop in Hwf as [Hx Hitems].
  cbn [parse_elements]. destruct items as [|y items].
  - unfold elems_size in Hsize. cbn [map list_sum foldr] in Hsize.
    unfold elems. cbn [map join].
    rewrite Hv; [| lia | exact Hx | exact Hind | now apply terminated_newline].
    cbn [rbind snd fst]. rewrite skip_ws_close by auto. reflexivity.
  - rewrite elems_cons, <- app_assoc. cbn [app].
    assert (size x < fuel /\ elems_size (y :: items) < fuel) as [Hsx Hsy].
    { unfold elems_size in *. cbn [map list_sum foldr] in *. lia. }
    rewrite Hv; [| exact Hsx | exact Hx | exact Hind | reflexivity].
    cbn [rbind snd fst skip_ws is_ws Ascii.eqb Bool.eqb orb]. rewrite <- app_assoc.
    rewrite skip_ws_newline by exact Hind.
    destruct (elems_head gap ind y items (newline gap back ++ "]"%char :: r))
      as (c & t & Heq & Hc).
    rewrite Heq, (skip_ws_start c t Hc), <- Heq.
    rewrite He; [reflexivity | exact Hsy | exact Hitems | exact Hind | exact Hback].
Qed.

Lemma member_text ind k v rest :
  member gap ind (k, v) ++ rest =
    "034"%char :: escape (list_ascii_of_string k)
      ++ "034"%char :: colon gap ++ serialize gap ind v ++ rest.
Proof.
  unfold member, quote. cbn [fst snd app]. now rewrite <- !app_assoc.
Qed.

Lemma skip_colon rest :
  exists r1, skip_ws (colon gap ++ rest) = ":"%char :: r1 /\ skip_ws r1 = skip_ws rest.
Proof. destruct gap; eexists; split; reflexivity. Qed.

Lemma parse_members_step fuel X l r0 r1 :
  parse_chars X = Ok (l, r0) -> skip_ws r0 = ":"%char :: r1 ->
  parse_members (S fuel) ("034"%char :: X) =
    rbind (parse_value fuel (skip_ws r1)) (fun p =>
      let kv := (string_of_list_ascii l, fst p) in
      match skip_ws (snd p) with
      | [] => Throw SyntaxError
      | c2 :: r2 =>
          if Ascii.eqb c2 ","
          then rmap (fun q => (kv :: fst q, snd q)) (parse_members fuel (skip_ws r2))
          else if Ascii.eqb c2 "}" then Ok ([kv], r2) else Throw SyntaxError
      end).
Proof. intros HX Hr0. cbn [parse_members]. rewrite HX. cbn. rewrite Hr0. reflexivity. Qed.

Lemma members_step fuel :
  value_ok gap fuel -> members_ok gap fuel -> members_ok gap (S fuel).
Proof.
  intros Hv Hm members [k v] ind back r Hsize Hwf Hind Hback.
  cbn [forallb snd] in Hwf. apply andb_prop in Hwf as [Hx Hmembers].
  destruct members as [|kv' members].
  - unfold membs_size in Hsize. cbn [map list_sum foldr snd] in Hsize.
    unfold membs. cbn [map join]. rewrite member_text.
    destruct (skip_colon (serialize gap ind v ++ newline gap back ++ "}"%char :: r))
      as (r1 & Hcolon & Hr1).
    destruct (serialize_head gap ind v (newline gap back ++ "}"%char :: r))
      as (c & t & Heq & Hc).
    rewrite (parse_members_step fuel _ _ _ _ (parse_chars_escape _ _) Hcolon), Hr1.
    rewrite Heq, (skip_ws_start c t Hc), <- Heq.
    rewrite Hv; [| lia | exact Hx | exact Hind | now apply terminated_newline].
    cbn [rbind snd fst]. rewrite skip_ws_close by auto.
    rewrite string_of_list_ascii_of_string. reflexivity.
  - rewrite membs_cons, <- app_assoc. cbn [app]. rewrite member_text.
    assert (size v < fuel /\ membs_size (kv' :: members) < fuel) as [Hsx Hsy].
    { unfold membs_size in *. cbn [map list_sum foldr snd] in *. lia. }
    set (tail := ","%char :: _).
    destruct (skip_colon (serialize gap ind v ++ tail)) as (r1 & Hcolon & Hr1).
    destruct (serialize_head gap ind v tail) as (c & t & Heq & Hc).
    rewrite (parse_members_step fuel _ _ _ _ (parse_chars_escape _ _) Hcolon), Hr1.
    rewrite Heq, (skip_ws_start c t Hc), <- Heq.
    rewrite Hv; [| exact Hsx | exact Hx | exact Hind | reflexivity].
    unfold tail. cbn [rbind snd fst skip_ws is_ws Ascii.eqb Bool.eqb orb].
    rewrite <- app_assoc, skip_ws_newline by exact Hind.
    destruct (membs_head gap ind kv' members (newline gap back ++ "}"%char :: r))
      as (t' & Heq').
    rewrite Heq'. cbn [skip_ws is_ws Ascii.eqb Bool.eqb orb]. rewrite <- Heq'.
    rewrite Hm; [| exact Hsy | exact Hmembers | exact Hind | exact Hback].
    cbn [rmap rbind fst snd]. rewrite string_of_list_ascii_of_string. reflexivity.
Qed.

Lemma forallb_and {A} (f g : A -> bool) l :
  forallb (fun x => f x && g x) l = forallb f l && forallb g l.
Proof.
  induction l as [|x l IH]; cbn [forallb]; [reflexivity|].
  rewrite IH. destruct (f x), (g x), (forallb f l); reflexivity.
Qed.

Lemma value_step fuel :
  elements_ok gap fuel -> members_ok gap fuel -> value_ok gap (S fuel).
Proof.
  intros He Hm v ind r Hsize Hwf Hind Hr.
  destruct v as [|[]|n|s|[|x items]|[|kv members]]; try reflexivity.
  - cbn [serialize wf] in *.
    destruct (print_Z_head n r) as (c & t & Heq & Hc & _).
    rewrite Heq, (parse_value_number fuel c t Hc), <- Heq.
    now rewrite parse_number_print.
  - cbn [serialize]. unfold quote. cbn [app parse_value Ascii.eqb Bool.eqb].
    rewrite <- app_assoc. cbn [app]. rewrite parse_chars_escape.
    cbn [rmap rbind fst snd]. now rewrite string_of_list_ascii_of_string.
  - rewrite serialize_array. cbn [app]. rewrite <- !app_assoc. cbn [app].
    cbn [wf size] in *. fold (elems_size (x :: items)) in Hsize.
    set (X := elems gap (ind ++ gap) (x :: items) ++ newline gap ind ++ "]"%char :: r).
    destruct (elems_head gap (ind ++ gap) x items (newline gap ind ++ "]"%char :: r))
      as (c & t & Heq & Hc). fold X in Heq.
    assert (skip_ws (newline gap (ind ++ gap) ++ X) = c :: t) as Hskip.
    { rewrite skip_ws_newline by now apply spaces_app.
      rewrite Heq. now apply skip_ws_start. }
    rewrite (parse_value_array fuel _ c t Hskip Hc), <- Heq. unfold X.
    rewrite He; [reflexivity | lia | exact Hwf | now apply spaces_app | exact Hind].
  - rewrite serialize_object. cbn [app]. rewrite <- !app_assoc. cbn [app].
    cbn [wf size] in *. fold (membs_size (kv :: members)) in Hsize.
    apply andb_prop in Hwf as [Hwf Hd]. rewrite forallb_and in Hwf.
    apply andb_prop in Hwf as [Hi Hwf].
    set (X := membs gap (ind ++ gap) (kv :: members) ++ newline gap ind ++ "}"%char :: r).
    destruct (membs_head gap (ind ++ gap) kv members (newline gap ind ++ "}"%char :: r))
      as (t & Heq). fold X in Heq.
    assert (skip_ws (newline gap (ind ++ gap) ++ X) = "034"%char :: t) as Hskip.
    { rewrite skip_ws_newline by now apply spaces_app. now rewrite Heq. }
    rewrite (parse_value_object fuel _ t Hskip), <- Heq. unfold X.
    rewrite Hm; [| lia | exact Hwf | now apply spaces_app | exact Hind].
    cbn [rbind fst snd]. now rewrite build_object_distinct.
Qed.

Lemma all_ok fuel : value_ok gap fuel /\ elements_ok gap fuel /\ members_ok gap fuel.
Proof.
  induction fuel as [|fuel (Hv & He & Hm)].
  - repeat split; intros ?; intros; lia.
  - auto using value_step, elements_step, members_step.
Qed.

(** The text is at least as long as the fuel the value needs. *)

Lemma elems_size_le ind items :
  (forall x, In x items -> size x <= length (serialize gap ind x)) ->
  elems_size items <= S (length (elems gap ind items)).
Proof.
  induction items as [|x items IH]; intros H; [unfold elems_size; simpl; lia|].
  assert (size x <= length (serialize gap ind x)) as Hx by (apply H; now left).
  assert (elems_size items <= S (length (elems gap ind items))) as Hitems
    by (apply IH; intros y Hy; apply H; now right).
  destruct items as [|y items].
  - unfold elems_size, elems. cbn [map list_sum foldr join]. lia.
  - rewrite elems_cons. unfold elems_size in *. cbn [map list_sum foldr] in *.
    rewrite length_app. cbn [length]. rewrite length_app. lia.
Qed.

Lemma membs_size_le ind members :
  (forall kv, In kv members -> size (snd kv) <= length (serialize gap ind (snd kv))) ->
  membs_size members <= S (length (membs gap ind members)).
Proof.
  induction members as [|kv members IH]; intros H; [unfold membs_size; simpl; lia|].
  assert (size (snd kv) <= length (member gap ind kv)) as Hx.
  { unfold member. rewrite !length_app. specialize (H kv (or_introl eq_refl)). lia. }
  assert (membs_size members <= S (length (membs gap ind members))) as Hmembers
    by (apply IH; intros y Hy; apply H; now right).
  destruct members as [|kv' members].
  - unfold membs_size, membs. cbn [map list_sum foldr join]. lia.
  - rewrite membs_cons. unfold membs_size in *. cbn [map list_sum foldr] in *.
    rewrite length_app. cbn [length]. rewrite length_app. lia.
Qed.

Lemma elems_size_cons x items : elems_size (x :: items) = S (size x) + elems_size items.
Proof. reflexivity. Qed.

Lemma membs_size_cons kv members :
  membs_size (kv :: members) = S (size (snd kv)) + membs_size members.
Proof. reflexivity. Qed.

Lemma in_elems_size x items : In x items -> size x < elems_size items.
Proof.
  induction items as [|y items IH]; [contradiction|].
  rewrite elems_size_cons. intros [->|H]; [lia | specialize (IH H); lia].
Qed.

Lemma in_membs_size kv members : In kv members -> size (snd kv) < membs_size members.
Proof.
  induction members as [|y members IH]; [contradiction|].
  rewrite membs_size_cons. intros [->|H]; [lia | specialize (IH H); lia].
Qed.

Lemma size_le_length n : forall v ind,
  size v <= n -> size v <= length (serialize gap ind v).
Proof.
  induction n as [|n IH]; intros v ind Hn.
  - lia.
  - destruct v as [| | | |[|x items]|[|kv members]]; try (simpl; lia); cbn [size] in *.
    + rewrite serialize_array. fold (elems_size (x :: items)) in *.
      cbn [length]. rewrite !length_app.
      pose proof (elems_size_le (ind ++ gap) (x :: items)) as H.
      cbn [length]. enough (elems_size (x :: items)
                            <= S (length (elems gap (ind ++ gap) (x :: items)))) by lia.
      apply H. intros y Hy. apply IH. apply in_elems_size in Hy. lia.
    + rewrite serialize_object. fold (membs_size (kv :: members)) in *.
      cbn [length]. rewrite !length_app.
      pose proof (membs_size_le (ind ++ gap) (kv :: members)) as H.
      cbn [length]. enough (membs_size (kv :: members)
                            <= S (length (membs gap (ind ++ gap) (kv :: members)))) by lia.
      apply H. intros y Hy. apply IH. apply in_membs_size in Hy. lia.
Qed.

Lemma parse_serialize v :
  wf v = true ->
  parse (string_of_list_ascii (serialize gap [] v)) = Ok v.
Proof.
  intros Hwf. unfold parse. rewrite list_ascii_of_string_of_list_ascii.
  destruct (serialize_head gap [] v []) as (c & t & Heq & Hc).
  rewrite app_nil_r in Heq. rewrite Heq, (skip_ws_start c t Hc), <- Heq.
  pose proof (proj1 (all_ok (S (length (serialize gap [] v)))) v [] []) as H.
  rewrite app_nil_r in H. rewrite H; [reflexivity | | exact Hwf | reflexivity..].
  pose proof (size_le_length (size v) v [] (le_n _)). lia.
Qed.

End RoundTrip.

Lemma spaces_repeat n : spaces (repeat " "%char n) = true.
Proof. induction n as [|n IH]; [reflexivity | exact IH]. Qed.

(** [JSON.parse] inverts [JSON.stringify], whatever the indentation. *)
Lemma parse_stringify v space :
  wf v = true -> JSON.parse (JSON.stringify v space) = Ok v.
Proof. intros H. apply parse_serialize; [apply spaces_repeat | exact H]. Qed.

End JSONFacts.

(** ** The history store: saving and loading *)

Lemma wf_json_of_history h :
  wf_history h = true -> JSONDomain.wf (json_of_history h) = true.
Proof.
  unfold wf_history. destruct h as [key texts items]. cbn [sessions]. intros H.
  assert (forallb JSONDomain.wf (map JStr texts) = true) as Ht.
  { induction texts as [|t texts IH]; [reflexivity | exact IH]. }
  assert (forallb JSONDomain.wf (map json_of_session items) = true) as Hi.
  { induction items as [|r items IH]; [reflexivity|].
    cbn [forallb] in H. apply andb_prop in H as [Hr H].
    cbn [map forallb]. rewrite (IH H), andb_true_r.
    unfold json_of_session. cbn [JSONDomain.wf forallb fst snd map].
    rewrite Hr. reflexivity. }
  destruct key as [k|]; unfold json_of_history; cbn [openAiApiKey rawTextsUsed sessions app];
    cbn [JSONDomain.wf forallb fst snd map]; rewrite Ht, Hi; reflexivity.
Qed.

Lemma mapM_string_of_json texts : mapM string_of_json (map JStr texts) = Some texts.
Proof.
  induction texts as [|t texts IH]; [reflexivity|].
  cbn [map]. rewrite mapM_Some. constructor; [reflexivity|].
  now apply mapM_Some.
Qed.

Lemma session_of_json_of_session r : session_of_json (json_of_session r) = Some r.
Proof. now destruct r. Qed.

Lemma mapM_session_of_json items :
  mapM session_of_json (map json_of_session items) = Some items.
Proof.
  induction items as [|r items IH]; [reflexivity|].
  cbn [map]. rewrite mapM_Some. constructor; [apply session_of_json_of_session|].
  now apply mapM_Some.
Qed.

(** A store is read back from its JSON value. *)
Lemma history_of_json_of_history h : history_of_json (json_of_history h) = Some h.
Proof.
  destruct h as [[k|] texts items]; unfold json_of_history, history_of_json;
    cbn [openAiApiKey rawTextsUsed sessions app String.eqb Ascii.eqb Bool.eqb];
    unfold lists_of_json; cbn [String.eqb Ascii.eqb Bool.eqb andb];
    rewrite mapM_string_of_json, mapM_session_of_json; reflexivity.
Qed.

Lemma saveHistory_run h env s :
  read_only s = false ->
  saveHistory h env s =
    (Ok tt, set_file (HISTORY_FILE env) (JSON.stringify (json_of_history h) 2) s).
Proof.
  intros Hw. unfold saveHistory, mbind, M_bind, ask, writeFileSync. now rewrite Hw.
Qed.

Lemma loadHistory_run env s :
  loadHistory env s =
    (match files s !! HISTORY_FILE env with
     | None => Ok (literal defaultHistory)
     | Some data =>
         match JSON.parse data with
         | Ok v => Ok (parsed v)
         | Throw _ => Ok (literal defaultHistory)
         | NotModelled => NotModelled
         end
     end, s).
Proof.
  unfold loadHistory, try_catch, mbind, M_bind, ask, readFileSync, lift, mret, M_ret.
  destruct (files s !! HISTORY_FILE env) as [data|]; [|reflexivity].
  now destruct (JSON.parse data).
Qed.

(** C5: saving a well-formed store and loading it again gives the store
    back: the loaded value is the JSON value of the store, and that value
    denotes the store. *)
Theorem load_after_save h env s :
  wf_history h = true ->
  read_only s = false ->
  let saved := saveHistory h env s in
  fst saved = Ok tt /\
  loadHistory env (snd saved) = (Ok (parsed (json_of_history h)), snd saved) /\
  history_of_json (json_of_history h) = Some h.
Proof.
  intros Hwf Hw saved. unfold saved. rewrite (saveHistory_run h env s Hw).
  cbn [fst snd]. split; [reflexivity|]. split; [|apply history_of_json_of_history].
  rewrite loadHistory_run. unfold set_file; cbn [files]. rewrite lookup_insert_eq.
  now rewrite JSONFacts.parse_stringify by now apply wf_json_of_history.
Qed.

(** ** A run of [main] *)

(** *** Single steps *)

Lemma bind_eq {A B} (m : M A) (k : A -> M B) env s :
  (m ≫= k) env s =
    match m env s with
    | (Ok a, s') => k a env s'
    | (Throw e, s') => (Throw e, s')
    | (NotModelled, s') => (NotModelled, s')
    end.
Proof. reflexivity. Qed.

Lemma loadHistory_files env s s' :
  files s' = files s -> loadHistory env s' = (fst (loadHistory env s), s').
Proof. intros H. now rewrite !loadHistory_run, H. Qed.

Lemma as_HistoryData_run x h env s :
  typed_store x = Some h -> as_HistoryData x env s = (Ok h, s).
Proof. intros H. unfold as_HistoryData. now rewrite H. Qed.

Lemma prompt_input_run name message env s :
  prompt_input name message env s = (Ok (typed env name), add_trace [asked message] s).
Proof. reflexivity. Qed.

Lemma prompt_list_run name message choices selected env s :
  selectable choices !! picked env = Some selected ->
  prompt_list name message choices env s = (Ok selected, add_trace [asked message] s).
Proof.
  intros H. unfold prompt_list, mbind, M_bind, emit, ask. cbv beta iota. now rewrite H.
Qed.

Lemma initializeClient_run key env s :
  truthy key = true ->
  initializeClient (Some key) env s =
    (Ok (Some {| OpenAI.apiKey := key |}), set_client {| OpenAI.apiKey := key |} s).
Proof. intros H. unfold initializeClient. rewrite bind_eq, H. reflexivity. Qed.

Lemma attempt_read_ok path data env s :
  files s !! path = Some data -> attempt (readFileSync path) env s = (Ok (inr data), s).
Proof.
  intros H. unfold attempt, try_catch. rewrite bind_eq. unfold readFileSync. now rewrite H.
Qed.

Lemma attempt_read_fails path env s :
  files s !! path = None ->
  attempt (readFileSync path) env s = (Ok (inl (read_error env path)), s).
Proof.
  intros H. unfold attempt, try_catch. rewrite bind_eq. unfold readFileSync. now rewrite H.
Qed.

Lemma attempt_run {A} (m : M A) env s :
  attempt m env s =
    match m env s with
    | (Ok a, s') => (Ok (inr a), s')
    | (Throw e, s') => (Ok (inl e), s')
    | (NotModelled, s') => (NotModelled, s')
    end.
Proof.
  unfold attempt, try_catch. rewrite bind_eq. now destruct (m env s) as [[a|e|] s'].
Qed.

Lemma send_reject conversation model temperature env s handle err :
  openai s = Some handle ->
  completions_create env handle (request_body conversation model temperature)
    = inl err ->
  sendMessageToChatGPTWithStream conversation model temperature env s =
    (Throw (Error "Error in stream"),
     add_trace [requested handle (request_body conversation model temperature);
                console_log_ev [Exn err]] s).
Proof.
  intros Hc Hr.
  unfold sendMessageToChatGPTWithStream, mbind, M_bind, get; simpl. rewrite Hc.
  unfold try_catch, chat_completions_create, mbind, M_bind, emit, ask; simpl.
  fold (request_body conversation model temperature). rewrite Hr.
  unfold throw, console_log, emit. now rewrite add_trace_add_trace.
Qed.

Lemma saveHistory_fails h env s :
  read_only s = true ->
  saveHistory h env s = (Throw (write_error env (HISTORY_FILE env)), s).
Proof.
  intros Hw. unfold saveHistory, mbind, M_bind, ask, writeFileSync. now rewrite Hw.
Qed.

Lemma state_eq (a b : State) :
  files a = files b -> read_only a = read_only b -> openai a = openai b ->
  trace a = trace b -> a = b.
Proof. destruct a, b; simpl; intros; now subst. Qed.

Ltac state_fields :=
  cbn [files read_only openai trace add_trace set_file set_client at_reads].

Lemma requests_app a b : requests (a ++ b) = requests a ++ requests b.
Proof. apply omap_app. Qed.

Lemma requests_request c r l : requests (requested c r :: l) = r :: requests l.
Proof. reflexivity. Qed.

Lemma requests_log args l : requests (console_log_ev args :: l) = requests l.
Proof. reflexivity. Qed.

Lemma requests_stdout l : requests (map stdout_write_ev l) = [].
Proof. induction l as [|x l IH]; [reflexivity | exact IH]. Qed.

Lemma requests_before_reads h selected : requests (events_before_reads h selected) = [].
Proof.
  unfold events_before_reads.
  destruct (truthy_opt (openAiApiKey h)), (String.eqb selected sentinel); reflexivity.
Qed.

Lemma digit_is_digit n : Date.is_digit (Date.digit n) = true.
Proof.
  unfold Date.digit.
  assert (0 <= n mod 10 < 10)%Z as H by (apply Z.mod_pos_bound; lia).
  assert (n mod 10 = 0 \/ n mod 10 = 1 \/ n mod 10 = 2 \/ n mod 10 = 3 \/ n mod 10 = 4 \/
          n mod 10 = 5 \/ n mod 10 = 6 \/ n mod 10 = 7 \/ n mod 10 = 8 \/ n mod 10 = 9)%Z
    as Hcases by lia.
  repeat (destruct Hcases as [->|Hcases]; [reflexivity|]). now rewrite Hcases.
Qed.

(** [toISOString] writes an instant in the ISO format, for every time
    value. *)
Lemma toISOString_iso tv : Date.iso_instant (Date.toISOString tv) = true.
Proof.
  unfold Date.toISOString. destruct (Date.civil (tv / 86400000)) as [[y m] d].
  unfold Date.iso_instant. rewrite list_ascii_of_string_of_list_ascii.
  unfold Date.year_digits, Date.digits6, Date.digits4, Date.digits3, Date.digits2.
  destruct ((0 <=? y)%Z && (y <=? 9999)%Z).
  - cbn [app Date.iso_rest]. rewrite !digit_is_digit. reflexivity.
  - destruct (y <? 0)%Z; cbn [app Date.iso_rest]; rewrite !digit_is_digit; reflexivity.
Qed.

Section Run.

Variables (env : Env) (s : State) (loaded : history_value) (h0 : HistoryData).
Variables (key selected : string).

(** The history file gives a store; the key is there or is typed in and
    written; the user picks an entry of the list. *)
Hypothesis load_ok : fst (loadHistory env s) = Ok loaded.
Hypothesis store_ok : typed_store loaded = Some h0.
Hypothesis key_ok : openAiApiKey (with_key env h0) = Some key.
Hypothesis key_truthy : truthy key = true.
Hypothesis write_ok : truthy_opt (openAiApiKey h0) = false -> read_only s = false.
Hypothesis pick_ok : selectable (rawTextChoices (with_key env h0)) !! picked env = Some selected.

Lemma main_run :
  main env s = outcome env (at_reads env s h0 key selected) key selected (with_key env h0).
Proof.
  unfold main.
  rewrite bind_eq. cbn [console_log emit].
  rewrite bind_eq, bind_eq.
  rewrite (loadHistory_files env s) by reflexivity. rewrite load_ok.
  rewrite (as_HistoryData_run _ _ _ _ store_ok).
  rewrite bind_eq.
  (* step 2 *)
  match goal with
  | |- context [(if negb (truthy_opt (openAiApiKey h0)) then ?a else ?b) env ?st] =>
      assert ((if negb (truthy_opt (openAiApiKey h0)) then a else b) env st =
              (Ok (with_key env h0),
               {| files := files_with_key env s h0; read_only := read_only s;
                  openai := openai s;
                  trace := trace s ++
                    console_log_ev [Str ("Welcome to the File Comparison + LLM CLI!" ++ nl)]
                    :: (if truthy_opt (openAiApiKey h0) then []
                        else [asked "Please enter your OpenAI API key:"]) |})) as ->
  end.
  { unfold files_with_key, with_key.
    destruct (truthy_opt (openAiApiKey h0)) eqn:Hk; cbn [negb].
    - reflexivity.
    - rewrite bind_eq, prompt_input_run, bind_eq.
      rewrite saveHistory_run by (now apply write_ok).
      cbn [mret M_ret]. f_equal. apply state_eq; state_fields; try reflexivity.
      now rewrite <- app_assoc. }
  (* step 3 *)
  rewrite bind_eq, key_ok, (initializeClient_run key _ _ key_truthy).
  (* step 4 *)
  rewrite bind_eq, (prompt_list_run _ _ _ selected) by exact pick_ok.
  rewrite bind_eq. cbv beta iota.
  match goal with
  | |- context [(if String.eqb selected "Enter new text" then ?a else ?b) env ?st] =>
      assert ((if String.eqb selected "Enter new text" then a else b) env st =
              (Ok (selector_of env selected, store_selected env selected (with_key env h0)),
               add_trace (if String.eqb selected sentinel
                          then [asked "Enter the raw text for this step:"] else []) st))
        as ->
  end.
  { unfold selector_of, store_selected, sentinel.
    destruct (String.eqb selected "Enter new text").
    - rewrite bind_eq, prompt_input_run.
      now destruct (truthy (trim (typed env "newSelectorText"))).
    - cbn [mret M_ret]. now rewrite add_trace_nil. }
  (* step 5 *)
  rewrite bind_eq, prompt_input_run, bind_eq, prompt_input_run, bind_eq, prompt_input_run.
  rewrite bind_eq. cbn [ask]. rewrite bind_eq.
  match goal with
  | |- context [attempt _ env ?st] =>
      replace st with (at_reads env s h0 key selected)
  end.
  2:{ apply state_eq; state_fields; try reflexivity.
      unfold events_before_reads. cbn [app]. rewrite <- !app_assoc. cbn [app].
      reflexivity. }
  (* step 6 *)
  unfold outcome. set (at_ := at_reads env s h0 key selected).
  rewrite attempt_run. unfold readFileSync at 1.
  destruct (files at_ !! path_resolve env (typed env "filePath1")) as [f1|]; [|reflexivity].
  cbv beta iota. rewrite bind_eq, attempt_run. unfold readFileSync at 1.
  destruct (files at_ !! path_resolve env (typed env "filePath2")) as [f2|]; [|reflexivity].
  cbv beta iota.
  (* steps 7 and 8 *)
  rewrite bind_eq. cbn [console_log emit]. rewrite bind_eq, attempt_run.
  fold (conversation_of f1 f2 (typed env "taskPrompt")).
  fold (llm_body f1 f2 (typed env "taskPrompt")).
  destruct (completions_create env {| OpenAI.apiKey := key |}
              (llm_body f1 f2 (typed env "taskPrompt"))) as [err|completion] eqn:Hcc.
  - rewrite (send_reject _ _ _ env (add_trace _ at_) {| OpenAI.apiKey := key |} err
               eq_refl Hcc). cbv beta iota.
    unfold console_error, emit. now rewrite !add_trace_add_trace.
  - rewrite (send_run _ _ _ env (add_trace _ at_) {| OpenAI.apiKey := key |} completion
               eq_refl Hcc).
    destruct (forallb has_choice completion) eqn:Hall; cbv beta iota.
    + rewrite (delivered_all _ Hall).
      rewrite bind_eq. cbn [console_log emit]. rewrite bind_eq. cbn [ask].
      rewrite bind_eq, !add_trace_add_trace.
      fold (session_of env selected (store_selected env selected (with_key env h0))).
      fold (store_recorded env selected (with_key env h0)).
      change (read_only at_) with (read_only s).
      destruct (read_only s) eqn:Hro.
      * rewrite saveHistory_fails by exact Hro. reflexivity.
      * rewrite saveHistory_run by exact Hro. unfold console_log, emit.
        f_equal. apply state_eq; state_fields; try reflexivity.
        cbn [app]. repeat (rewrite <- app_assoc; cbn [app]). reflexivity.
    + unfold console_error, emit. now rewrite !add_trace_add_trace.
Qed.

(** *** What the summary says of each ending *)

Lemma sessions_selected h : sessions (store_selected env selected h) = sessions h.
Proof.
  unfold store_selected.
  destruct (String.eqb selected sentinel); [|reflexivity].
  now destruct (truthy (trim (typed env "newSelectorText"))).
Qed.

Lemma with_key_lists :
  rawTextsUsed (with_key env h0) = rawTextsUsed h0 /\
  sessions (with_key env h0) = sessions h0.
Proof. unfold with_key. now destruct (truthy_opt (openAiApiKey h0)). Qed.

(** A read that fails ends the run there. *)
Lemma main_read_fails :
  files_with_key env s h0 !! path_resolve env (typed env "filePath1") = None \/
  files_with_key env s h0 !! path_resolve env (typed env "filePath2") = None ->
  exists which path,
    main env s =
      (Ok tt,
       add_trace [console_error_ev [Str which; Exn (read_error env path)]]
         (at_reads env s h0 key selected)).
Proof.
  intros H. rewrite main_run. unfold outcome. cbn [files at_reads].
  destruct (files_with_key env s h0 !! path_resolve env (typed env "filePath1"))
    as [f1|]; [|cbv zeta; eauto].
  destruct H as [H|H]; [discriminate|]. cbv zeta. rewrite H. eauto.
Qed.

(** A run whose reads and whose stream succeed is recorded. *)
Lemma main_completes f1 f2 completion :
  files_with_key env s h0 !! path_resolve env (typed env "filePath1") = Some f1 ->
  files_with_key env s h0 !! path_resolve env (typed env "filePath2") = Some f2 ->
  completions_create env {| OpenAI.apiKey := key |} (llm_body f1 f2 (typed env "taskPrompt"))
    = inr completion ->
  forallb has_choice completion = true ->
  read_only s = false ->
  fst (main env s) = Ok tt /\
  files (snd (main env s)) =
    <[HISTORY_FILE env :=
        JSON.stringify (json_of_history (store_recorded env selected (with_key env h0))) 2]>
      (files_with_key env s h0).
Proof.
  intros H1 H2 Hcc Hall Hro. rewrite main_run. unfold outcome.
  cbn [files read_only at_reads]. rewrite H1, H2, Hcc, Hall, Hro. split; reflexivity.
Qed.

(** *** The claims about a run *)

(** When both files are read, one request goes out. *)
Lemma run_requests f1 f2 :
  files_with_key env s h0 !! path_resolve env (typed env "filePath1") = Some f1 ->
  files_with_key env s h0 !! path_resolve env (typed env "filePath2") = Some f2 ->
  requests (trace (snd (main env s))) =
    requests (trace s) ++ [llm_body f1 f2 (typed env "taskPrompt")].
Proof.
  intros H1 H2.
  rewrite main_run. unfold outcome. cbv zeta. cbn [files read_only at_reads].
  rewrite H1, H2.
  assert (forall evs st,
    trace st = trace (at_reads env s h0 key selected) ->
    requests evs = [llm_body f1 f2 (typed env "taskPrompt")] ->
    requests (trace (snd (Ok tt, add_trace evs st))) =
      requests (trace s) ++ [llm_body f1 f2 (typed env "taskPrompt")]) as Hadd.
  { intros evs st Hst Hevs. cbn [snd trace add_trace]. rewrite Hst. cbn [trace at_reads].
    now rewrite !requests_app, requests_before_reads, app_nil_r, Hevs. }
  assert (forall tail,
    requests tail = [] ->
    requests (streaming_banner
              :: requested {| OpenAI.apiKey := key |} (llm_body f1 f2 (typed env "taskPrompt"))
              :: tail) = [llm_body f1 f2 (typed env "taskPrompt")]) as Hsent.
  { intros tail Htail. unfold streaming_banner.
    now rewrite requests_log, requests_request, Htail. }
  destruct (completions_create env _ _) as [err|completion].
  { apply Hadd; [reflexivity | now apply Hsent]. }
  destruct (forallb has_choice completion).
  - destruct (read_only s).
    + apply (Hadd _ (at_reads env s h0 key selected) eq_refl), Hsent.
      now rewrite requests_app, requests_stdout.
    + apply Hadd; [reflexivity|]. cbn [app]. apply Hsent.
      now rewrite !requests_app, requests_stdout.
  - apply Hadd; [reflexivity|]. apply Hsent.
    now rewrite requests_app, requests_stdout.
Qed.

(** C4: when the first file cannot be read, or the second, the run ends
    there, normally, on the diagnostic: no request goes out, and the files
    are as they were at
    the start but for the history file when the key had to be asked for,
    which then holds the store as loaded with the key set, no session and
    no text added to it. *)
Theorem read_failure_leaves_history :
  files_with_key env s h0 !! path_resolve env (typed env "filePath1") = None \/
  files_with_key env s h0 !! path_resolve env (typed env "filePath2") = None ->
  fst (main env s) = Ok tt /\
  (exists which path,
     last (trace (snd (main env s))) =
       Some (console_error_ev [Str which; Exn (read_error env path)])) /\
  requests (trace (snd (main env s))) = requests (trace s) /\
  files (snd (main env s)) =
    (if truthy_opt (openAiApiKey h0) then files s
     else <[HISTORY_FILE env :=
              JSON.stringify
                (json_of_history
                   {| openAiApiKey := Some (trim (typed env "apiKey"));
                      rawTextsUsed := rawTextsUsed h0;
                      sessions := sessions h0 |}) 2]> (files s)).
Proof.
  intros H. destruct (main_read_fails H) as (which & path & ->). cbn [fst snd].
  split; [reflexivity|]. split; [|split].
  - exists which, path. cbn [trace add_trace]. apply last_snoc.
  - cbn [trace add_trace at_reads].
    now rewrite !requests_app, requests_before_reads, !app_nil_r.
  - cbn [files add_trace at_reads]. unfold files_with_key, with_key.
    now destruct (truthy_opt (openAiApiKey h0)).
Qed.

Section Completed.

Variables (f1 f2 : string) (completion : list OpenAI.ChatCompletionChunk).

(** Both files are read, the provider streams events that each carry a
    choice, and the disk takes the store. *)
Hypothesis read1_ok :
  files_with_key env s h0 !! path_resolve env (typed env "filePath1") = Some f1.
Hypothesis read2_ok :
  files_with_key env s h0 !! path_resolve env (typed env "filePath2") = Some f2.
Hypothesis stream_ok :
  completions_create env {| OpenAI.apiKey := key |} (llm_body f1 f2 (typed env "taskPrompt"))
    = inr completion.
Hypothesis choices_ok : forallb has_choice completion = true.
Hypothesis disk_ok : read_only s = false.

Lemma recorded_in_file :
  fst (main env s) = Ok tt /\
  files (snd (main env s)) !! HISTORY_FILE env =
    Some (JSON.stringify (json_of_history (store_recorded env selected (with_key env h0))) 2).
Proof.
  destruct (main_completes f1 f2 completion read1_ok read2_ok stream_ok choices_ok disk_ok)
    as [Hok ->].
  split; [exact Hok | apply lookup_insert_eq].
Qed.

(** C6: the record appended by a completed run has for [id] the number of
    sessions before it plus one (3 after 2), carries the selector text, the
    two paths and the task prompt as they were typed, and the clock's
    reading in ISO format; it comes last in the store that is written. *)
Theorem session_record_appended :
  exists recorded,
    fst (main env s) = Ok tt /\
    files (snd (main env s)) !! HISTORY_FILE env =
      Some (JSON.stringify (json_of_history recorded) 2) /\
    sessions recorded =
      sessions h0 ++
        [ {| id := Z.of_nat (length (sessions h0)) + 1;
             selectorText := selector_of env selected;
             filePath1 := typed env "filePath1";
             filePath2 := typed env "filePath2";
             taskPrompt := typed env "taskPrompt";
             timestamp := Date.toISOString (now env) |} ] /\
    Date.iso_instant (Date.toISOString (now env)) = true /\
    (length (sessions h0) = 2%nat -> (Z.of_nat (length (sessions h0)) + 1 = 3)%Z).
Proof.
  exists (store_recorded env selected (with_key env h0)).
  destruct recorded_in_file as [Hok Hfile].
  split; [exact Hok|]. split; [exact Hfile|]. split; [|split].
  - unfold store_recorded, session_of. cbn [sessions push_session].
    now rewrite sessions_selected, (proj2 with_key_lists).
  - apply toISOString_iso.
  - intros ->. reflexivity.
Qed.

(** C7: when the entry picked is "Enter new text", the text typed next is
    added at the end of [rawTextsUsed], once, the earlier entries staying
    as they are, unless it trims to the empty string, and then nothing is
    added; either way the text as typed is the selector text of the
    session. *)
Theorem new_text_appended_unless_blank :
  selected = sentinel ->
  exists recorded session,
    files (snd (main env s)) !! HISTORY_FILE env =
      Some (JSON.stringify (json_of_history recorded) 2) /\
    rawTextsUsed recorded =
      (if String.eqb (trim (typed env "newSelectorText")) EmptyString
       then rawTextsUsed h0
       else rawTextsUsed h0 ++ [typed env "newSelectorText"]) /\
    sessions recorded = sessions h0 ++ [session] /\
    selectorText session = typed env "newSelectorText".
Proof.
  intros Hsel.
  exists (store_recorded env selected (with_key env h0)),
         (session_of env selected (store_selected env selected (with_key env h0))).
  split; [apply recorded_in_file|]. split; [|split].
  - unfold store_recorded, store_selected, truthy. cbn [rawTextsUsed push_session].
    rewrite Hsel, String.eqb_refl.
    destruct (String.eqb (trim (typed env "newSelectorText")) EmptyString);
      cbn [negb rawTextsUsed push_rawText]; now rewrite (proj1 with_key_lists).
  - unfold store_recorded. cbn [sessions push_session].
    now rewrite sessions_selected, (proj2 with_key_lists).
  - unfold session_of, selector_of. cbn [selectorText].
    now rewrite Hsel, String.eqb_refl.
Qed.

(** C10: when the entry picked is "Enter new text" and the text typed does
    not trim to the empty string, the entry added to [rawTextsUsed] and the
    selector text of the session are the text as typed; when trimming
    changes the text, neither is the trimmed text. *)
Theorem new_text_stored_untrimmed :
  selected = sentinel ->
  trim (typed env "newSelectorText") <> EmptyString ->
  exists recorded session,
    files (snd (main env s)) !! HISTORY_FILE env =
      Some (JSON.stringify (json_of_history recorded) 2) /\
    last (rawTextsUsed recorded) = Some (typed env "newSelectorText") /\
    last (sessions recorded) = Some session /\
    selectorText session = typed env "newSelectorText" /\
    (trim (typed env "newSelectorText") <> typed env "newSelectorText" ->
     last (rawTextsUsed recorded) <> Some (trim (typed env "newSelectorText")) /\
     selectorText session <> trim (typed env "newSelectorText")).
Proof.
  intros Hsel Htrim.
  exists (store_recorded env selected (with_key env h0)),
         (session_of env selected (store_selected env selected (with_key env h0))).
  assert (rawTextsUsed (store_recorded env selected (with_key env h0)) =
          rawTextsUsed h0 ++ [typed env "newSelectorText"]) as Htexts.
  { unfold store_recorded, store_selected, truthy. cbn [rawTextsUsed push_session].
    rewrite Hsel, String.eqb_refl.
    destruct (String.eqb_spec (trim (typed env "newSelectorText")) EmptyString);
      [contradiction|].
    cbn [negb rawTextsUsed push_rawText]. now rewrite (proj1 with_key_lists). }
  assert (selectorText (session_of env selected (store_selected env selected (with_key env h0)))
          = typed env "newSelectorText") as Hselector.
  { unfold session_of, selector_of. cbn [selectorText]. now rewrite Hsel, String.eqb_refl. }
  split; [apply recorded_in_file|].
  rewrite Htexts, Hselector, last_snoc.
  split; [reflexivity|]. split; [|split; [reflexivity|]].
  - unfold store_recorded. cbn [sessions push_session]. apply last_snoc.
  - intros Hne. split; congruence.
Qed.

End Completed.

End Run.

(** C3: when both files are read, the run sends one request, and its
    conversation is made of two messages: the fixed system message, and a
    user message that is the template filled with the text of file 1 under
    its label, the text of file 2 under its label, and the task prompt, or
    the fallback sentence when the prompt is empty.  The selector text is
    no part of either message: the same request goes out whatever entry is
    picked and whatever new text is typed. *)
Theorem conversation_has_two_messages env s loaded h0 key selected f1 f2 :
  fst (loadHistory env s) = Ok loaded ->
  typed_store loaded = Some h0 ->
  openAiApiKey (with_key env h0) = Some key ->
  truthy key = true ->
  (truthy_opt (openAiApiKey h0) = false -> read_only s = false) ->
  selectable (rawTextChoices (with_key env h0)) !! picked env = Some selected ->
  files_with_key env s h0 !! path_resolve env (typed env "filePath1") = Some f1 ->
  files_with_key env s h0 !! path_resolve env (typed env "filePath2") = Some f2 ->
  exists body,
    requests (trace (snd (main env s))) = requests (trace s) ++ [body] /\
    OpenAI.messages body =
      [ {| role := system;
           content :=
             "You are a helpful assistant that compares two files and provides insights." |};
        {| role := user;
           content := ("
I have two files.

File 1 Content:
" ++ f1 ++ "

File 2 Content:
" ++ f2 ++ "

Task: " ++ (if String.eqb (typed env "taskPrompt") EmptyString
            then "Compare and analyze the differences."
            else typed env "taskPrompt") ++ "
")%string |} ] /\
    forall i text selected',
      selectable (rawTextChoices (with_key env h0)) !! i = Some selected' ->
      requests (trace (snd (main (with_selector i text env) s))) =
        requests (trace s) ++ [body].
Proof.
  intros Hload Hstore Hkey Htruthy Hwrite Hpick H1 H2.
  exists (llm_body f1 f2 (typed env "taskPrompt")). split; [|split].
  - now apply (run_requests env s loaded h0 key selected).
  - unfold llm_body, request_body, conversation_of, system_message, user_content, truthy.
    cbn [OpenAI.messages messages].
    now destruct (String.eqb (typed env "taskPrompt") EmptyString).
  - intros i text selected' Hpick'.
    apply (run_requests (with_selector i text env) s loaded h0 key selected');
      assumption.
Qed.

(** ** The theorems at work *)

Lemma load_after_save_witness :
  let saved := saveHistory Worlds.store (Worlds.user 0) (Sample.fresh ∅) in
  fst saved = Ok tt /\
  loadHistory (Worlds.user 0) (snd saved)
    = (Ok (parsed (json_of_history Worlds.store)), snd saved) /\
  history_of_json (json_of_history Worlds.store) = Some Worlds.store.
Proof.
  apply (load_after_save Worlds.store (Worlds.user 0) (Sample.fresh ∅)); reflexivity.
Defined.

(** A first run, with no history file: the key is typed, "Enter new text"
    is the only entry, the text typed is " demo ". *)
Lemma conversation_has_two_messages_witness :
  exists body,
    requests (trace (snd (main (Worlds.user 0) (Sample.fresh Worlds.inputs)))) = [body] /\
    OpenAI.messages body =
      [ {| role := system;
           content :=
             "You are a helpful assistant that compares two files and provides insights." |};
        {| role := user;
           content := "
I have two files.

File 1 Content:
alpha

File 2 Content:
beta

Task: Compare and analyze the differences.
" |} ] /\
    forall i text selected',
      [sentinel] !! i = Some selected' ->
      requests (trace (snd (main (with_selector i text (Worlds.user 0))
                              (Sample.fresh Worlds.inputs)))) = [body].
Proof.
  refine (conversation_has_two_messages (Worlds.user 0) (Sample.fresh Worlds.inputs)
            (literal defaultHistory) defaultHistory "sk-test" sentinel "alpha" "beta"
            _ _ _ _ _ _ _ _);
    first [reflexivity | intros _; reflexivity].
Defined.

(** A first run whose first file is missing: the key has been written, and
    nothing else. *)
Lemma read_failure_leaves_history_witness :
  let run := main (Worlds.user 0) (Sample.fresh ∅) in
  fst run = Ok tt /\
  (exists (which path : string),
     last (trace (snd run)) =
       Some (console_error_ev [Str which; Exn (SystemError "ENOENT")])) /\
  requests (trace (snd run)) = [] /\
  files (snd run) =
    <[Worlds.history_path :=
        JSON.stringify
          (json_of_history
             {| openAiApiKey := Some "sk-test"; rawTextsUsed := []; sessions := [] |}) 2]> ∅.
Proof.
  refine (read_failure_leaves_history (Worlds.user 0) (Sample.fresh ∅)
            (literal defaultHistory) defaultHistory "sk-test" sentinel
            _ _ _ _ _ _ _);
    first [reflexivity | intros _; reflexivity | left; reflexivity].
Defined.

(** A run on a store of two sessions, the user picking the stored text. *)
Lemma session_record_appended_witness :
  exists recorded,
    fst (main (Worlds.user 0) (Sample.fresh Worlds.disk)) = Ok tt /\
    files (snd (main (Worlds.user 0) (Sample.fresh Worlds.disk))) !! Worlds.history_path =
      Some (JSON.stringify (json_of_history recorded) 2) /\
    sessions recorded =
      sessions Worlds.store ++
        [ {| id := 3; selectorText := "demo"; filePath1 := "foo.txt"; filePath2 := "bar.txt";
             taskPrompt := EmptyString; timestamp := "2023-11-14T22:13:20.000Z" |} ] /\
    Date.iso_instant "2023-11-14T22:13:20.000Z" = true /\
    (2%nat = 2%nat -> 3%Z = 3%Z).
Proof.
  refine (session_record_appended (Worlds.user 0) (Sample.fresh Worlds.disk)
            (parsed (json_of_history Worlds.store)) Worlds.store "sk-test" "demo"
            _ _ _ _ _ _ "alpha" "beta" Sample.hello _ _ _ _ _);
    first [reflexivity | intros _; reflexivity | vm_compute; reflexivity].
Defined.

(** A first run in which " demo " is typed as the new text, and one in
    which only spaces are. *)
Lemma new_text_appended_unless_blank_witness :
  (exists recorded session,
     files (snd (main (Worlds.user 0) (Sample.fresh Worlds.inputs))) !! Worlds.history_path =
       Some (JSON.stringify (json_of_history recorded) 2) /\
     rawTextsUsed recorded = [" demo "] /\
     sessions recorded = [session] /\
     selectorText session = " demo ") /\
  (exists recorded session,
     files (snd (main Worlds.blank_user (Sample.fresh Worlds.inputs))) !! Worlds.history_path =
       Some (JSON.stringify (json_of_history recorded) 2) /\
     rawTextsUsed recorded = [] /\
     sessions recorded = [session] /\
     selectorText session = "   ").
Proof.
  split.
  - refine (new_text_appended_unless_blank (Worlds.user 0) (Sample.fresh Worlds.inputs)
              (literal defaultHistory) defaultHistory "sk-test" sentinel
              _ _ _ _ _ _ "alpha" "beta" Sample.hello _ _ _ _ _ _);
      first [reflexivity | intros _; reflexivity].
  - refine (new_text_appended_unless_blank Worlds.blank_user (Sample.fresh Worlds.inputs)
              (literal defaultHistory) defaultHistory "sk-test" sentinel
              _ _ _ _ _ _ "alpha" "beta" Sample.hello _ _ _ _ _ _);
      first [reflexivity | intros _; reflexivity].
Defined.

Lemma new_text_stored_untrimmed_witness :
  exists recorded session,
    files (snd (main (Worlds.user 0) (Sample.fresh Worlds.inputs))) !! Worlds.history_path =
      Some (JSON.stringify (json_of_history recorded) 2) /\
    last (rawTextsUsed recorded) = Some " demo " /\
    last (sessions recorded) = Some session /\
    selectorText session = " demo " /\
    ("demo" <> " demo " ->
     last (rawTextsUsed recorded) <> Some "demo" /\ selectorText session <> "demo").
Proof.
  refine (new_text_stored_untrimmed (Worlds.user 0) (Sample.fresh Worlds.inputs)
            (literal defaultHistory) defaultHistory "sk-test" sentinel
            _ _ _ _ _ _ "alpha" "beta" Sample.hello _ _ _ _ _ _ _);
    first [reflexivity | intros _; reflexivity | discriminate].
Defined.

(** * Further properties of the code *)

(** ** What the functions leave alone *)

Lemma untouched_refl env s : untouched env s s.
Proof.
  split; [reflexivity|]. split; [reflexivity|]. exists []. now rewrite app_nil_r.
Qed.

Lemma untouched_trans env a b c :
  untouched env a b -> untouched env b c -> untouched env a c.
Proof.
  intros (Hr1 & Hf1 & evs1 & Ht1) (Hr2 & Hf2 & evs2 & Ht2).
  split; [congruence|]. split.
  - intros path Hp. rewrite Hf2, Hf1; auto.
  - exists (evs1 ++ evs2). now rewrite Ht2, Ht1, app_assoc.
Qed.

Lemma untouched_add_trace env evs s : untouched env s (add_trace evs s).
Proof. split; [reflexivity|]. split; [reflexivity|]. now exists evs. Qed.

Lemma untouched_set_client env c s : untouched env s (set_client c s).
Proof.
  split; [reflexivity|]. split; [reflexivity|]. exists []. cbn [trace set_client].
  now rewrite app_nil_r.
Qed.

Lemma untouched_set_history env data s :
  untouched env s (set_file (HISTORY_FILE env) data s).
Proof.
  split; [reflexivity|]. split.
  - intros path Hp. cbn [files set_file]. apply lookup_insert_ne. congruence.
  - exists []. cbn [trace set_file]. now rewrite app_nil_r.
Qed.

Lemma confined_ret {A} E (a : A) : confined E (mret a).
Proof. intros env s. split; [apply untouched_refl | discriminate]. Qed.

Lemma confined_bind {A B} E (m : M A) (k : A -> M B) :
  confined E m -> (forall a, confined E (k a)) -> confined E (m ≫= k).
Proof.
  intros Hm Hk env s. rewrite bind_eq. specialize (Hm env s).
  destruct (m env s) as [[a|e|] s']; cbn [fst snd] in *.
  - destruct Hm as [Hu _], (Hk a env s') as [Hu' He'].
    split; [eapply untouched_trans; eauto | exact He'].
  - destruct Hm as [Hu He]. split; [exact Hu | intros e' [= <-]; now apply He].
  - split; [apply Hm | discriminate].
Qed.

Lemma confined_weaken {A} (E E' : Env -> exn -> Prop) (m : M A) :
  (forall env e, E env e -> E' env e) -> confined E m -> confined E' m.
Proof.
  intros Hsub Hm env s. destruct (Hm env s) as [Hu He]. split; [exact Hu | auto].
Qed.

Lemma confined_try_catch {A} E E' (body : M A) (handler : exn -> M A) :
  confined E' body -> (forall err, confined E (handler err)) ->
  confined E (try_catch body handler).
Proof.
  intros Hb Hh env s. unfold try_catch. specialize (Hb env s).
  destruct (body env s) as [[a|e|] s']; cbn [fst snd] in *.
  - split; [apply Hb | discriminate].
  - destruct Hb as [Hu _], (Hh e env s') as [Hu' He'].
    split; [eapply untouched_trans; eauto | exact He'].
  - split; [apply Hb | discriminate].
Qed.

Lemma confined_attempt {A} E E' (m : M A) : confined E' m -> confined E (attempt m).
Proof.
  intros Hm. unfold attempt. apply (confined_try_catch E E').
  - apply confined_bind; [exact Hm | intros a; apply confined_ret].
  - intros err. apply confined_ret.
Qed.

Lemma confined_throw {A} (E : Env -> exn -> Prop) e :
  (forall env, E env e) -> confined E (throw e : M A).
Proof. intros He env s. split; [apply untouched_refl | intros e' [= <-]; apply He]. Qed.

Lemma confined_not_modelled {A} E : confined E (not_modelled : M A).
Proof. intros env s. split; [apply untouched_refl | discriminate]. Qed.

Lemma confined_lift {A} (r : result A) : confined any_error (lift r).
Proof. intros env s. split; [apply untouched_refl | now intros]. Qed.

Lemma confined_ask {A} E (f : Env -> A) : confined E (ask f).
Proof. intros env s. split; [apply untouched_refl | discriminate]. Qed.

Lemma confined_get {A} E (f : State -> A) : confined E (get f).
Proof. intros env s. split; [apply untouched_refl | discriminate]. Qed.

Lemma confined_emit E e : confined E (emit e).
Proof. intros env s. split; [apply untouched_add_trace | discriminate]. Qed.

Lemma confined_readFileSync path : confined any_error (readFileSync path).
Proof.
  intros env s. unfold readFileSync.
  destruct (files s !! path); (split; [apply untouched_refl | now intros]).
Qed.

Lemma confined_set_openai E c : confined E (set_openai c).
Proof. intros env s. split; [apply untouched_set_client | discriminate]. Qed.

Lemma confined_prompt_input E name message : confined E (prompt_input name message).
Proof.
  unfold prompt_input. apply confined_bind; [apply confined_emit|].
  intros _. apply confined_ask.
Qed.

Lemma confined_prompt_list E name message choices :
  confined E (prompt_list name message choices).
Proof.
  unfold prompt_list. apply confined_bind; [apply confined_emit|].
  intros _. apply confined_bind; [apply confined_ask|].
  intros i. destruct (selectable choices !! i); [apply confined_ret | apply confined_not_modelled].
Qed.

Lemma confined_loadHistory : confined no_error loadHistory.
Proof.
  unfold loadHistory. apply (confined_try_catch no_error any_error).
  - apply confined_bind; [apply confined_ask|]. intros path.
    apply confined_bind; [apply confined_readFileSync|]. intros data.
    apply confined_bind; [apply confined_lift|]. intros v. apply confined_ret.
  - intros err. apply confined_ret.
Qed.

Lemma confined_as_HistoryData E x : confined E (as_HistoryData x).
Proof.
  unfold as_HistoryData.
  destruct (typed_store x); [apply confined_ret | apply confined_not_modelled].
Qed.

Lemma confined_saveHistory h : confined write_failure (saveHistory h).
Proof.
  intros env s. unfold saveHistory, mbind, M_bind, ask, writeFileSync.
  destruct (read_only s); cbn [fst snd].
  - split; [apply untouched_refl | now intros e [= <-]].
  - split; [apply untouched_set_history | discriminate].
Qed.

Lemma confined_initializeClient apiKey :
  confined (fun _ e => e = Error "Failed to initiate OpenAI Client")
    (initializeClient apiKey).
Proof.
  unfold initializeClient. apply confined_bind; [|intros _; apply confined_get].
  destruct apiKey as [key|]; [destruct (truthy key)|];
    first [apply confined_set_openai | now apply confined_throw].
Qed.

Lemma confined_for_await completion : forall message,
  confined (fun _ e => e = TypeError) (for_await completion message).
Proof.
  induction completion as [|event rest IH]; intros message; cbn [for_await].
  - apply confined_ret.
  - destruct (OpenAI.choices event) as [|choice0 others]; [now apply confined_throw|].
    destruct (OpenAI.content (OpenAI.delta choice0)) as [content|]; [|apply IH].
    destruct (truthy content); [|apply IH].
    apply confined_bind; [apply confined_emit | intros _; apply IH].
Qed.

Lemma confined_sendMessageToChatGPTWithStream conversation model temperature :
  confined stream_failure
    (sendMessageToChatGPTWithStream conversation model temperature).
Proof.
  unfold sendMessageToChatGPTWithStream. cbv zeta.
  apply confined_bind; [apply confined_get|]. intros [handle|].
  2:{ apply confined_throw. intros env. now left. }
  apply confined_bind.
  - apply (confined_try_catch stream_failure any_error).
    + unfold chat_completions_create.
      apply confined_bind; [apply confined_emit|]. intros _.
      apply confined_bind; [apply confined_ask|]. intros [err|completion].
      * now apply confined_throw.
      * apply confined_ret.
    + intros err. apply confined_bind; [apply confined_emit|]. intros _.
      apply confined_throw. intros env. right. now left.
  - intros completion.
    apply (confined_weaken (fun _ e => e = TypeError)); [|apply confined_for_await].
    intros env e He. cbv beta in He. subst e. right. now right.
Qed.

Lemma confined_main : confined escaping main.
Proof.
  assert (forall h, confined escaping (saveHistory h)) as Hsave.
  { intros h. apply (confined_weaken write_failure); [|apply confined_saveHistory].
    intros env e He. unfold write_failure in He. subst e. now right. }
  unfold main.
  apply confined_bind; [apply confined_emit|]. intros _.
  apply confined_bind.
  { apply confined_bind; [|intros x; apply confined_as_HistoryData].
    apply (confined_weaken no_error); [intros env e []|apply confined_loadHistory]. }
  intros history.
  apply confined_bind.
  { destruct (negb (truthy_opt (openAiApiKey history))); [|apply confined_ret].
    apply confined_bind; [apply confined_prompt_input|]. intros apiKey.
    apply confined_bind; [apply Hsave|]. intros _. apply confined_ret. }
  clear history. intros history.
  apply confined_bind.
  { eapply confined_weaken; [|apply confined_initializeClient].
    intros env e He. cbv beta in He. subst e. now left. }
  intros _. cbv zeta.
  apply confined_bind; [apply confined_prompt_list|]. intros selectedOrNew.
  apply confined_bind.
  { destruct (String.eqb selectedOrNew "Enter new text"); [|apply confined_ret].
    apply confined_bind; [apply confined_prompt_input|]. intros newSelectorText.
    destruct (truthy (trim newSelectorText)); apply confined_ret. }
  intros [selectorText history'].
  apply confined_bind; [apply confined_prompt_input|]. intros filePath1.
  apply confined_bind; [apply confined_prompt_input|]. intros filePath2.
  apply confined_bind; [apply confined_prompt_input|]. intros taskPrompt.
  apply confined_bind; [apply confined_ask|]. intros resolve.
  apply confined_bind; [apply (confined_attempt _ any_error), confined_readFileSync|].
  intros [err|fileContent1]; [apply confined_emit|].
  apply confined_bind; [apply (confined_attempt _ any_error), confined_readFileSync|].
  intros [err|fileContent2]; [apply confined_emit|].
  apply confined_bind; [apply confined_emit|]. intros _.
  apply confined_bind.
  { apply (confined_attempt _ stream_failure),
      confined_sendMessageToChatGPTWithStream. }
  intros [error|response]; [apply confined_emit|].
  apply confined_bind; [apply confined_emit|]. intros _.
  apply confined_bind; [apply confined_ask|]. intros today.
  apply confined_bind; [apply Hsave|]. intros _. apply confined_emit.
Qed.

(** X1: whatever the disk holds, the user answers and the provider does,
    [main] writes no file but the history file: every other path holds
    after the run what it held before. *)
Theorem main_writes_only_history_file env s path :
  path <> HISTORY_FILE env ->
  files (snd (main env s)) !! path = files s !! path.
Proof. intros Hp. destruct (confined_main env s) as [(_ & Hf & _) _]. now apply Hf. Qed.

Lemma main_writes_only_history_file_witness :
  files (snd (main (Worlds.user 0) (Sample.fresh Worlds.disk))) !! "/work/foo.txt" =
    files (Sample.fresh Worlds.disk) !! "/work/foo.txt".
Proof.
  apply (main_writes_only_history_file (Worlds.user 0) (Sample.fresh Worlds.disk)
           "/work/foo.txt").
  discriminate.
Defined.



(** ** The streaming call, whatever the provider does *)

Lemma send_uninitialised conversation model temperature env s :
  openai s = None ->
  sendMessageToChatGPTWithStream conversation model temperature env s =
    (Throw (Error "OpenAI not initialized"), s).
Proof.
  intros Hc. unfold sendMessageToChatGPTWithStream, mbind, M_bind, get; simpl.
  now rewrite Hc.
Qed.

Lemma written_app a b : written (a ++ b) = written a ++ written b.
Proof. apply omap_app. Qed.

Lemma written_stdout l : written (map stdout_write_ev l) = l.
Proof.
  induction l as [|x l IH]; [reflexivity|].
  change (x :: written (map stdout_write_ev l) = x :: l). now rewrite IH.
Qed.

Lemma senders_app a b : senders (a ++ b) = senders a ++ senders b.
Proof. apply omap_app. Qed.

Lemma senders_stdout l : senders (map stdout_write_ev l) = [].
Proof. induction l as [|x l IH]; [reflexivity | exact IH]. Qed.





(** X5: what [sendMessageToChatGPTWithStream] returns is what it has written to
    standard output: the chunks written during a call that returns make up,
    in their order, the message returned, and none is empty. *)
Theorem streamed_text_is_returned conversation model temperature env s message :
  fst (sendMessageToChatGPTWithStream conversation model temperature env s) = Ok message ->
  exists chunks,
    written (trace (snd (sendMessageToChatGPTWithStream conversation model temperature env s)))
      = written (trace s) ++ chunks /\
    concat chunks = message /\
    Forall (fun chunk => chunk <> EmptyString) chunks.
Proof.
  destruct (openai s) as [handle|] eqn:Hc.
  - destruct (completions_create env handle (request_body conversation model temperature))
      as [err|completion] eqn:Hr.
    + now rewrite (send_reject _ _ _ _ _ _ _ Hc Hr).
    + rewrite (send_run _ _ _ _ _ _ _ Hc Hr). cbn [fst snd trace add_trace].
      destruct (forallb has_choice completion) eqn:Hall; [|discriminate].
      intros [= <-]. exists (deltas completion).
      rewrite (delivered_all _ Hall), written_app.
      change (written (requested handle (request_body conversation model temperature)
                       :: map stdout_write_ev (deltas completion)))
        with (written (map stdout_write_ev (deltas completion))).
      rewrite written_stdout. auto using deltas_non_empty.
  - now rewrite (send_uninitialised _ _ _ _ _ Hc).
Qed.

Lemma streamed_text_is_returned_witness :
  exists chunks,
    written (trace (snd (sendMessageToChatGPTWithStream Sample.question None None
                           (Sample.env Sample.hello) (Sample.started ∅))))
      = [] ++ chunks /\
    concat chunks = "Hello world" /\
    Forall (fun chunk => chunk <> EmptyString) chunks.
Proof.
  apply (streamed_text_is_returned Sample.question None None
           (Sample.env Sample.hello) (Sample.started ∅) "Hello world").
  reflexivity.
Defined.

(** X6: the client that sends is the one initialised last: after
    [initializeClient] with a key that is not empty, the request of
    [sendMessageToChatGPTWithStream] is sent with that key, whatever client
    was there before; and an [initializeClient] that fails afterwards
    changes nothing. *)
Theorem client_is_the_last_initialised key conversation model temperature env s :
  truthy key = true ->
  let ready := snd (initializeClient (Some key) env s) in
  senders (trace (snd (sendMessageToChatGPTWithStream conversation model temperature
                         env ready)))
    = senders (trace s) ++ [ {| OpenAI.apiKey := key |} ]
  /\ forall absent,
       truthy_opt absent = false ->
       snd (initializeClient absent env ready) = ready.
Proof.
  intros Hkey ready. unfold ready. rewrite (initializeClient_run key env s Hkey).
  cbn [snd]. split.
  - destruct (completions_create env {| OpenAI.apiKey := key |}
                (request_body conversation model temperature)) as [err|completion] eqn:Hr.
    + rewrite (send_reject _ _ _ env (set_client _ s) _ err eq_refl Hr).
      cbn [snd trace add_trace set_client]. now rewrite senders_app.
    + rewrite (send_run _ _ _ env (set_client _ s) _ completion eq_refl Hr).
      cbn [snd trace add_trace set_client]. rewrite senders_app.
      change (senders (requested {| OpenAI.apiKey := key |}
                         (request_body conversation model temperature)
                       :: map stdout_write_ev (deltas (delivered completion))))
        with ({| OpenAI.apiKey := key |}
              :: senders (map stdout_write_ev (deltas (delivered completion)))).
      now rewrite senders_stdout.
  - intros [[|c k]|]; [reflexivity | discriminate | reflexivity].
Qed.

Lemma client_is_the_last_initialised_witness :
  let ready := snd (initializeClient (Some "sk-new") (Sample.env Sample.hello)
                      (Sample.started ∅)) in
  senders (trace (snd (sendMessageToChatGPTWithStream Sample.question None None
                         (Sample.env Sample.hello) ready)))
    = [] ++ [ {| OpenAI.apiKey := "sk-new" |} ]
  /\ forall absent,
       truthy_opt absent = false ->
       snd (initializeClient absent (Sample.env Sample.hello) ready) = ready.
Proof.
  apply (client_is_the_last_initialised "sk-new" Sample.question None None
           (Sample.env Sample.hello) (Sample.started ∅)).
  reflexivity.
Defined.

(** ** The history store: what a save replaces *)

(** X7: a save replaces the history file as a whole: after two saves the
    process is as after the second alone, the store loaded next is the
    second one, and no other file has changed. *)
Theorem saveHistory_replaces_the_file older newer env s :
  read_only s = false ->
  wf_history newer = true ->
  let twice := snd (saveHistory newer env (snd (saveHistory older env s))) in
  twice = snd (saveHistory newer env s) /\
  fst (loadHistory env twice) = Ok (parsed (json_of_history newer)) /\
  forall path, path <> HISTORY_FILE env -> files twice !! path = files s !! path.
Proof.
  intros Hw Hwf twice. unfold twice.
  rewrite (saveHistory_run older env s Hw). cbn [snd].
  rewrite !saveHistory_run by exact Hw. cbn [snd].
  split; [|split].
  - apply state_eq; state_fields; try reflexivity. apply insert_insert_eq.
  - rewrite loadHistory_run. cbn [fst files set_file]. rewrite lookup_insert_eq.
    now rewrite JSONFacts.parse_stringify by now apply wf_json_of_history.
  - intros path Hp. cbn [files set_file]. rewrite !lookup_insert_ne by congruence.
    reflexivity.
Qed.

Lemma saveHistory_replaces_the_file_witness :
  let twice :=
    snd (saveHistory Worlds.store (Worlds.user 0)
           (snd (saveHistory defaultHistory (Worlds.user 0) (Sample.fresh Worlds.inputs)))) in
  twice = snd (saveHistory Worlds.store (Worlds.user 0) (Sample.fresh Worlds.inputs)) /\
  fst (loadHistory (Worlds.user 0) twice) = Ok (parsed (json_of_history Worlds.store)) /\
  forall path,
    path <> HISTORY_FILE (Worlds.user 0) ->
    files twice !! path = files (Sample.fresh Worlds.inputs) !! path.
Proof.
  apply (saveHistory_replaces_the_file defaultHistory Worlds.store (Worlds.user 0)
           (Sample.fresh Worlds.inputs)); reflexivity.
Defined.

(** ** The key, when it has to be asked for *)

Lemma questions_app a b : questions (a ++ b) = questions a ++ questions b.
Proof. apply omap_app. Qed.

Lemma questions_stdout l : questions (map stdout_write_ev l) = [].
Proof. induction l as [|x l IH]; [reflexivity | exact IH]. Qed.

Lemma diagnostics_app a b : diagnostics (a ++ b) = diagnostics a ++ diagnostics b.
Proof. apply omap_app. Qed.

Section KeyAsked.

Variables (env : Env) (s : State) (loaded : history_value) (h0 : HistoryData).

(** The history file gives a store that has no key, or an empty one. *)
Hypothesis load_ok : fst (loadHistory env s) = Ok loaded.
Hypothesis store_ok : typed_store loaded = Some h0.
Hypothesis key_missing : truthy_opt (openAiApiKey h0) = false.

Lemma main_key_write_fails :
  read_only s = true ->
  main env s =
    (Throw (write_error env (HISTORY_FILE env)),
     add_trace [welcome; asked "Please enter your OpenAI API key:"] s).
Proof.
  intros Hro. unfold main.
  rewrite bind_eq. cbn [console_log emit].
  rewrite bind_eq, bind_eq.
  rewrite (loadHistory_files env s) by reflexivity. rewrite load_ok.
  rewrite (as_HistoryData_run _ _ _ _ store_ok).
  rewrite bind_eq, key_missing. cbn [negb].
  rewrite bind_eq, prompt_input_run, bind_eq.
  rewrite saveHistory_fails by exact Hro.
  now rewrite add_trace_add_trace.
Qed.

Lemma main_blank_key :
  read_only s = false ->
  trim (typed env "apiKey") = EmptyString ->
  main env s =
    (Throw (Error "Failed to initiate OpenAI Client"),
     set_file (HISTORY_FILE env)
       (JSON.stringify (json_of_history (set_openAiApiKey EmptyString h0)) 2)
       (add_trace [welcome; asked "Please enter your OpenAI API key:"] s)).
Proof.
  intros Hro Hblank. unfold main.
  rewrite bind_eq. cbn [console_log emit].
  rewrite bind_eq, bind_eq.
  rewrite (loadHistory_files env s) by reflexivity. rewrite load_ok.
  rewrite (as_HistoryData_run _ _ _ _ store_ok).
  rewrite bind_eq, key_missing. cbn [negb].
  rewrite bind_eq, prompt_input_run, bind_eq.
  rewrite saveHistory_run by exact Hro.
  cbn [mret M_ret]. rewrite bind_eq, Hblank.
  now rewrite add_trace_add_trace.
Qed.

(** X8: when the key has to be asked for and the disk refuses the write, the
    refusal comes out of [main] right after the question: nothing else is
    asked, no client is set up, no file changes, though a key was typed. *)
Theorem key_write_failure_escapes :
  read_only s = true ->
  fst (main env s) = Throw (write_error env (HISTORY_FILE env)) /\
  questions (trace (snd (main env s))) =
    questions (trace s) ++ ["Please enter your OpenAI API key:"] /\
  requests (trace (snd (main env s))) = requests (trace s) /\
  openai (snd (main env s)) = openai s /\
  files (snd (main env s)) = files s.
Proof.
  intros Hro. rewrite (main_key_write_fails Hro). cbn [fst snd trace add_trace files openai].
  rewrite questions_app, requests_app, app_nil_r. repeat split.
Qed.

(** X9: when the key typed is empty or blank, the store is written with the
    empty key before the key is checked; then [initializeClient] refuses
    it and its error comes out of [main], nothing else having been asked
    and no client set up. *)
Theorem blank_key_saved_then_refused :
  read_only s = false ->
  trim (typed env "apiKey") = EmptyString ->
  fst (main env s) = Throw (Error "Failed to initiate OpenAI Client") /\
  files (snd (main env s)) =
    <[HISTORY_FILE env :=
        JSON.stringify
          (json_of_history
             {| openAiApiKey := Some EmptyString;
                rawTextsUsed := rawTextsUsed h0;
                sessions := sessions h0 |}) 2]> (files s) /\
  questions (trace (snd (main env s))) =
    questions (trace s) ++ ["Please enter your OpenAI API key:"] /\
  requests (trace (snd (main env s))) = requests (trace s) /\
  openai (snd (main env s)) = openai s.
Proof.
  intros Hro Hblank. rewrite (main_blank_key Hro Hblank).
  cbn [fst snd trace add_trace set_file files openai].
  rewrite questions_app, requests_app, app_nil_r. repeat split.
Qed.

End KeyAsked.

Lemma key_write_failure_escapes_witness :
  let run := main (Worlds.user 0) (Trouble.locked Worlds.inputs) in
  fst run = Throw (SystemError "EROFS") /\
  questions (trace (snd run)) = [] ++ ["Please enter your OpenAI API key:"] /\
  requests (trace (snd run)) = [] /\
  openai (snd run) = None /\
  files (snd run) = Worlds.inputs.
Proof.
  refine (key_write_failure_escapes (Worlds.user 0) (Trouble.locked Worlds.inputs)
            (literal defaultHistory) defaultHistory _ _ _ _);
    reflexivity.
Defined.

Lemma blank_key_saved_then_refused_witness :
  let run := main Trouble.blank_key (Sample.fresh Worlds.inputs) in
  fst run = Throw (Error "Failed to initiate OpenAI Client") /\
  files (snd run) =
    <[Worlds.history_path :=
        JSON.stringify
          (json_of_history
             {| openAiApiKey := Some EmptyString; rawTextsUsed := []; sessions := [] |}) 2]>
      Worlds.inputs /\
  questions (trace (snd run)) = [] ++ ["Please enter your OpenAI API key:"] /\
  requests (trace (snd run)) = [] /\
  openai (snd run) = None.
Proof.
  refine (blank_key_saved_then_refused Trouble.blank_key (Sample.fresh Worlds.inputs)
            (literal defaultHistory) defaultHistory _ _ _ _ _);
    reflexivity.
Defined.

(** ** How a run ends *)

Lemma selectable_items texts : selectable (map Item texts) = texts.
Proof.
  induction texts as [|t texts IH]; [reflexivity|].
  change (t :: selectable (map Item texts) = t :: texts). now rewrite IH.
Qed.

(** The list question offers the stored texts, then "Enter new text". *)
Lemma selectable_rawTextChoices h :
  selectable (rawTextChoices h) = rawTextsUsed h ++ [sentinel].
Proof.
  unfold rawTextChoices. destruct (rawTextsUsed h) as [|t texts]; [reflexivity|].
  unfold selectable. rewrite omap_app. fold (selectable (map Item (t :: texts))).
  now rewrite selectable_items.
Qed.

Lemma questions_before_reads h selected :
  questions (events_before_reads h selected) = questions_of_run h selected.
Proof.
  unfold events_before_reads, questions_of_run.
  destruct (truthy_opt (openAiApiKey h)), (String.eqb selected sentinel); reflexivity.
Qed.

Lemma diagnostics_before_reads h selected :
  diagnostics (events_before_reads h selected) = [].
Proof.
  unfold events_before_reads.
  destruct (truthy_opt (openAiApiKey h)), (String.eqb selected sentinel); reflexivity.
Qed.

Lemma senders_before_reads h selected : senders (events_before_reads h selected) = [].
Proof.
  unfold events_before_reads.
  destruct (truthy_opt (openAiApiKey h)), (String.eqb selected sentinel); reflexivity.
Qed.

Lemma ids_in_order_snoc h r :
  ids_in_order h -> id r = (Z.of_nat (length (sessions h)) + 1)%Z ->
  ids_in_order (push_session r h).
Proof.
  unfold ids_in_order. cbn [sessions push_session]. intros Hids Hid.
  rewrite map_app, length_app, Hids. cbn [length map].
  rewrite Nat.add_1_r, seq_S, map_app. cbn [map]. rewrite Hid.
  do 2 f_equal. lia.
Qed.

Lemma ids_in_order_NoDup h : ids_in_order h -> NoDup (map id (sessions h)).
Proof.
  unfold ids_in_order. intros ->.
  apply (NoDup_fmap_2 Z.of_nat), NoDup_seq.
Qed.

Lemma with_key_keeps_lists env h :
  rawTextsUsed (with_key env h) = rawTextsUsed h /\
  sessions (with_key env h) = sessions h.
Proof. unfold with_key. destruct (truthy_opt (openAiApiKey h)); split; reflexivity. Qed.

Section Endings.

Variables (env : Env) (s : State) (loaded : history_value) (h0 : HistoryData).
Variables (key selected : string).

(** The history file gives a store; the key is there or is typed in and
    written; the user picks an entry of the list. *)
Hypothesis load_ok : fst (loadHistory env s) = Ok loaded.
Hypothesis store_ok : typed_store loaded = Some h0.
Hypothesis key_ok : openAiApiKey (with_key env h0) = Some key.
Hypothesis key_truthy : truthy key = true.
Hypothesis write_ok : truthy_opt (openAiApiKey h0) = false -> read_only s = false.
Hypothesis pick_ok : selectable (rawTextChoices (with_key env h0)) !! picked env = Some selected.

Lemma main_outcome :
  main env s = outcome env (at_reads env s h0 key selected) key selected (with_key env h0).
Proof.
  exact (main_run env s loaded h0 key selected
           load_ok store_ok key_ok key_truthy write_ok pick_ok).
Qed.

Lemma files_with_key_written :
  files_with_key env s h0 =
    (if truthy_opt (openAiApiKey h0) then files s
     else <[HISTORY_FILE env :=
              JSON.stringify
                (json_of_history
                   {| openAiApiKey := Some (trim (typed env "apiKey"));
                      rawTextsUsed := rawTextsUsed h0;
                      sessions := sessions h0 |}) 2]> (files s)).
Proof. unfold files_with_key, with_key. now destruct (truthy_opt (openAiApiKey h0)). Qed.

(** X10: the questions of a run that gets to reading the files: the key only
    when the store has none, the list, the new text only when "Enter new
    text" is the entry picked, then the two paths and the task, in this
    order; nothing is asked afterwards. *)
Theorem questions_in_order :
  questions (trace (snd (main env s))) =
    questions (trace s) ++
    (if truthy_opt (openAiApiKey h0) then [] else ["Please enter your OpenAI API key:"])
    ++ "Select step or enter a new one:"
    :: (if String.eqb selected "Enter new text"
        then ["Enter the raw text for this step:"] else [])
    ++ ["Enter the absolute path of the first file:";
        "Enter the absolute path of the second file:";
        "(Optional) Enter the LLM task or prompt (press enter to skip):"].
Proof.
  change (questions (trace (snd (main env s))) =
          questions (trace s) ++ questions_of_run h0 selected).
  rewrite <- questions_before_reads, <- questions_app.
  assert (forall r evs st,
    trace st = trace (at_reads env s h0 key selected) ->
    questions evs = [] ->
    questions (trace (snd (r : result unit, add_trace evs st)))
      = questions (trace s ++ events_before_reads h0 selected)) as Hadd.
  { intros r evs st Hst Hevs. cbn [snd trace add_trace]. rewrite Hst.
    cbn [trace at_reads]. now rewrite (questions_app (_ ++ _)), Hevs, app_nil_r. }
  assert (forall c r tail,
    questions (streaming_banner :: requested c r :: tail) = questions tail) as Hhead
    by reflexivity.
  rewrite main_outcome. unfold outcome. cbv zeta.
  destruct (files _ !! _); [|now apply Hadd].
  destruct (files _ !! _); [|now apply Hadd].
  destruct (completions_create env _ _) as [err|completion]; [now apply Hadd|].
  destruct (forallb has_choice completion).
  - destruct (read_only _).
    + apply Hadd; [reflexivity|]. now rewrite Hhead, questions_app, questions_stdout.
    + apply Hadd; [reflexivity|]. cbn [app].
      now rewrite Hhead, !questions_app, questions_stdout.
  - apply Hadd; [reflexivity|]. now rewrite Hhead, questions_app, questions_stdout.
Qed.

(** X11: the file that cannot be read is named by the diagnostic, with the
    error of the resolved path: the first file when it is missing, whether
    the second is there or not, and the second one only once the first has
    been read.  One diagnostic is printed. *)
Theorem read_failure_diagnostic :
  let path1 := path_resolve env (typed env "filePath1") in
  let path2 := path_resolve env (typed env "filePath2") in
  (files_with_key env s h0 !! path1 = None ->
   diagnostics (trace (snd (main env s))) =
     diagnostics (trace s)
       ++ [[Str "Could not read first file:"; Exn (read_error env path1)]]) /\
  (files_with_key env s h0 !! path1 <> None ->
   files_with_key env s h0 !! path2 = None ->
   diagnostics (trace (snd (main env s))) =
     diagnostics (trace s)
       ++ [[Str "Could not read second file:"; Exn (read_error env path2)]]).
Proof.
  intros path1 path2. rewrite main_outcome. unfold outcome. cbv zeta.
  cbn [files at_reads]. fold path1 path2. split.
  - intros ->. cbn [snd trace add_trace at_reads].
    now rewrite !diagnostics_app, diagnostics_before_reads, app_nil_r.
  - intros H1 ->. destruct (files_with_key env s h0 !! path1); [|contradiction].
    cbn [snd trace add_trace at_reads].
    now rewrite !diagnostics_app, diagnostics_before_reads, app_nil_r.
Qed.

(** X12: whichever way a run that gets to reading the files ends, the store is
    not cut down: either no file has changed, or the history file holds a
    store with the key of the run, the texts of the store as loaded
    followed by at most one more, and its sessions followed by at most one
    more. *)
Theorem history_only_grows :
  files (snd (main env s)) = files s \/
  exists kept texts records,
    files (snd (main env s)) =
      <[HISTORY_FILE env := JSON.stringify (json_of_history kept) 2]> (files s) /\
    openAiApiKey kept = Some key /\
    rawTextsUsed kept = rawTextsUsed h0 ++ texts /\ length texts <= 1 /\
    sessions kept = sessions h0 ++ records /\ length records <= 1.
Proof.
  assert (forall r evs,
    let final := snd (r : result unit, add_trace evs (at_reads env s h0 key selected)) in
    files final = files s \/
    exists kept texts records,
      files final =
        <[HISTORY_FILE env := JSON.stringify (json_of_history kept) 2]> (files s) /\
      openAiApiKey kept = Some key /\
      rawTextsUsed kept = rawTextsUsed h0 ++ texts /\ length texts <= 1 /\
      sessions kept = sessions h0 ++ records /\ length records <= 1) as Hkept.
  { intros r evs final. unfold final. cbn [snd files add_trace at_reads].
    unfold files_with_key. destruct (truthy_opt (openAiApiKey h0)); [now left|].
    right. exists (with_key env h0), [], [].
    rewrite !app_nil_r. destruct (with_key_keeps_lists env h0) as [-> ->].
    cbn [length]. repeat split; auto. }
  rewrite main_outcome. unfold outcome. cbv zeta.
  destruct (files _ !! path_resolve env (typed env "filePath1")); [|apply Hkept].
  destruct (files _ !! path_resolve env (typed env "filePath2")); [|apply Hkept].
  destruct (completions_create env _ _) as [err|completion]; [apply Hkept|].
  destruct (forallb has_choice completion); [|apply Hkept].
  destruct (read_only _); [apply Hkept|].
  right. cbn [snd files add_trace set_file at_reads].
  exists (store_recorded env selected (with_key env h0)),
         (if String.eqb selected sentinel
          then if truthy (trim (typed env "newSelectorText"))
               then [typed env "newSelectorText"] else []
          else []),
         [session_of env selected (store_selected env selected (with_key env h0))].
  split; [|split; [|split; [|split; [|split]]]].
  - unfold files_with_key. destruct (truthy_opt (openAiApiKey h0)); [reflexivity|].
    apply insert_insert_eq.
  - unfold store_recorded, store_selected. cbn [openAiApiKey push_session].
    destruct (String.eqb selected sentinel); [|exact key_ok].
    destruct (truthy (trim (typed env "newSelectorText"))); exact key_ok.
  - unfold store_recorded, store_selected. cbn [rawTextsUsed push_session].
    destruct (String.eqb selected sentinel);
      [destruct (truthy (trim (typed env "newSelectorText")))|];
      cbn [rawTextsUsed push_rawText]; rewrite ?app_nil_r;
      now rewrite (proj1 (with_key_keeps_lists env h0)).
  - destruct (String.eqb selected sentinel);
      [destruct (truthy (trim (typed env "newSelectorText")))|]; cbn [length]; lia.
  - unfold store_recorded. cbn [sessions push_session].
    rewrite (sessions_selected env selected).
    now rewrite (proj2 (with_key_keeps_lists env h0)).
  - cbn [length]. lia.
Qed.

Section BothRead.

Variables (f1 f2 : string).

Hypothesis read1_ok :
  files_with_key env s h0 !! path_resolve env (typed env "filePath1") = Some f1.
Hypothesis read2_ok :
  files_with_key env s h0 !! path_resolve env (typed env "filePath2") = Some f2.

Lemma main_reads :
  main env s =
    let at_ := at_reads env s h0 key selected in
    let sent :=
      requested {| OpenAI.apiKey := key |} (llm_body f1 f2 (typed env "taskPrompt")) in
    match completions_create env {| OpenAI.apiKey := key |}
            (llm_body f1 f2 (typed env "taskPrompt")) with
    | inl err =>
        (Ok tt,
         add_trace [streaming_banner; sent; console_log_ev [Exn err];
                    console_error_ev [Str (nl ++ "Error calling LLM:");
                                      Exn (Error "Error in stream")]] at_)
    | inr completion =>
        if forallb has_choice completion then
          let shown :=
            streaming_banner :: sent :: map stdout_write_ev (deltas completion)
              ++ [complete_banner (concat (deltas completion))] in
          if read_only s
          then (Throw (write_error env (HISTORY_FILE env)), add_trace shown at_)
          else
            (Ok tt,
             add_trace (shown ++ [goodbye])
               (set_file (HISTORY_FILE env)
                  (JSON.stringify
                     (json_of_history (store_recorded env selected (with_key env h0))) 2)
                  at_))
        else
          (Ok tt,
           add_trace (streaming_banner :: sent
                      :: map stdout_write_ev (deltas (delivered completion))
                      ++ [console_error_ev [Str (nl ++ "Error calling LLM:");
                                            Exn TypeError]]) at_)
    end.
Proof.
  rewrite main_outcome. unfold outcome. cbv zeta. cbn [files read_only at_reads].
  now rewrite read1_ok, read2_ok.
Qed.

(** X13: when the call to the provider fails, because the request is rejected
    or an event has no choice, the run ends normally on the diagnostic
    "Error calling LLM:" and nothing of it is kept: no session is recorded,
    and a new text that was typed is not stored.  The history file is
    written only if the key had to be asked for, with the key and the
    store as loaded. *)
Theorem llm_failure_records_nothing failure :
  llm_failure (completions_create env {| OpenAI.apiKey := key |}
                 (llm_body f1 f2 (typed env "taskPrompt"))) = Some failure ->
  fst (main env s) = Ok tt /\
  last (trace (snd (main env s))) =
    Some (console_error_ev [Str (nl ++ "Error calling LLM:"); Exn failure]) /\
  files (snd (main env s)) =
    (if truthy_opt (openAiApiKey h0) then files s
     else <[HISTORY_FILE env :=
              JSON.stringify
                (json_of_history
                   {| openAiApiKey := Some (trim (typed env "apiKey"));
                      rawTextsUsed := rawTextsUsed h0;
                      sessions := sessions h0 |}) 2]> (files s)).
Proof.
  rewrite main_reads, <- files_with_key_written. cbv zeta. unfold llm_failure.
  destruct (completions_create env _ _) as [err|completion].
  - intros [= <-]. cbn [fst snd trace files add_trace at_reads].
    split; [reflexivity|]. split; [|reflexivity].
    change [streaming_banner;
            requested {| OpenAI.apiKey := key |} (llm_body f1 f2 (typed env "taskPrompt"));
            console_log_ev [Exn err];
            console_error_ev [Str (nl ++ "Error calling LLM:"); Exn (Error "Error in stream")]]
      with ([streaming_banner;
             requested {| OpenAI.apiKey := key |} (llm_body f1 f2 (typed env "taskPrompt"));
             console_log_ev [Exn err]]
            ++ [console_error_ev [Str (nl ++ "Error calling LLM:");
                                  Exn (Error "Error in stream")]]).
    rewrite app_assoc. apply last_snoc.
  - destruct (forallb has_choice completion); [discriminate|].
    intros [= <-]. cbn [fst snd trace files add_trace at_reads].
    split; [reflexivity|]. split; [|reflexivity].
    rewrite !app_comm_cons, app_assoc. apply last_snoc.
Qed.

(** X14: when the key is in the store and the disk refuses the write of step
    11, the refusal comes out of [main] after the whole response has been
    shown: the last thing printed is the complete response, "Session
    saved" is not, and no file has changed. *)
Theorem response_shown_but_not_recorded completion :
  completions_create env {| OpenAI.apiKey := key |} (llm_body f1 f2 (typed env "taskPrompt"))
    = inr completion ->
  forallb has_choice completion = true ->
  read_only s = true ->
  fst (main env s) = Throw (write_error env (HISTORY_FILE env)) /\
  last (trace (snd (main env s))) = Some (complete_banner (concat (deltas completion))) /\
  files (snd (main env s)) = files s.
Proof.
  intros Hcc Hall Hro. rewrite main_reads, Hcc, Hall, Hro. cbv zeta.
  cbn [fst snd trace files add_trace at_reads].
  split; [reflexivity|]. split.
  - rewrite !app_comm_cons, app_assoc. apply last_snoc.
  - rewrite files_with_key_written.
    destruct (truthy_opt (openAiApiKey h0)); [reflexivity|].
    specialize (write_ok eq_refl). congruence.
Qed.

(** X15: the request of the run is sent with the key of the store when it has
    one, as it stands there, and otherwise with the key typed, trimmed. *)
Theorem key_of_the_request :
  senders (trace (snd (main env s))) = senders (trace s) ++ [ {| OpenAI.apiKey := key |} ] /\
  (truthy_opt (openAiApiKey h0) = true -> openAiApiKey h0 = Some key) /\
  (truthy_opt (openAiApiKey h0) = false -> key = trim (typed env "apiKey")).
Proof.
  split; [|split].
  - assert (forall r tail st,
      trace st = trace (at_reads env s h0 key selected) ->
      senders tail = [] ->
      senders (trace (snd (r : result unit,
                 add_trace (streaming_banner
                            :: requested {| OpenAI.apiKey := key |}
                                 (llm_body f1 f2 (typed env "taskPrompt"))
                            :: tail) st)))
        = senders (trace s) ++ [ {| OpenAI.apiKey := key |} ]) as Hadd.
    { intros r tail st Hst Htail. cbn [snd trace add_trace]. rewrite Hst.
      cbn [trace at_reads]. rewrite !senders_app, senders_before_reads, app_nil_r.
      f_equal.
      change (senders (streaming_banner
                       :: requested {| OpenAI.apiKey := key |}
                            (llm_body f1 f2 (typed env "taskPrompt"))
                       :: tail))
        with ({| OpenAI.apiKey := key |} :: senders tail).
      now rewrite Htail. }
    rewrite main_reads. cbv zeta.
    destruct (completions_create env _ _) as [err|completion]; [now apply Hadd|].
    destruct (forallb has_choice completion).
    + destruct (read_only s).
      * apply Hadd; [reflexivity|]. now rewrite senders_app, senders_stdout.
      * cbn [app]. apply Hadd; [reflexivity|].
        now rewrite !senders_app, senders_stdout.
    + apply Hadd; [reflexivity|]. now rewrite senders_app, senders_stdout.
  - intros Hk. revert key_ok. unfold with_key. now rewrite Hk.
  - intros Hk. revert key_ok. unfold with_key. rewrite Hk. cbn [openAiApiKey set_openAiApiKey].
    congruence.
Qed.

Section Recorded.

Variable completion : list OpenAI.ChatCompletionChunk.

Hypothesis stream_ok :
  completions_create env {| OpenAI.apiKey := key |} (llm_body f1 f2 (typed env "taskPrompt"))
    = inr completion.
Hypothesis choices_ok : forallb has_choice completion = true.
Hypothesis disk_ok : read_only s = false.

Lemma main_recorded :
  fst (main env s) = Ok tt /\
  files (snd (main env s)) =
    <[HISTORY_FILE env :=
        JSON.stringify (json_of_history (store_recorded env selected (with_key env h0))) 2]>
      (files_with_key env s h0).
Proof.
  exact (main_completes env s loaded h0 key selected
           load_ok store_ok key_ok key_truthy write_ok pick_ok
           f1 f2 completion read1_ok read2_ok stream_ok choices_ok disk_ok).
Qed.

Lemma recorded_sessions :
  sessions (store_recorded env selected (with_key env h0)) =
    sessions h0 ++ [session_of env selected (store_selected env selected (with_key env h0))].
Proof.
  unfold store_recorded. cbn [sessions push_session].
  rewrite (sessions_selected env selected).
  now rewrite (proj2 (with_key_keeps_lists env h0)).
Qed.

(** X16: when the entry picked is a stored text, it is one of the texts of the
    store as loaded, it is the selector text of the session, the new-text
    question is not put and [rawTextsUsed] is written back as it was. *)
Theorem stored_text_reused :
  selected <> "Enter new text" ->
  In selected (rawTextsUsed h0) /\
  exists recorded session,
    files (snd (main env s)) !! HISTORY_FILE env =
      Some (JSON.stringify (json_of_history recorded) 2) /\
    rawTextsUsed recorded = rawTextsUsed h0 /\
    sessions recorded = sessions h0 ++ [session] /\
    selectorText session = selected.
Proof.
  intros Hsel.
  assert (String.eqb selected sentinel = false) as Hneq by now apply String.eqb_neq.
  split.
  - pose proof pick_ok as Hpick. rewrite selectable_rawTextChoices in Hpick.
    rewrite (proj1 (with_key_keeps_lists env h0)) in Hpick.
    apply list_elem_of_lookup_2, elem_of_app in Hpick as [Hin|Hin].
    + now apply list_elem_of_In.
    + apply list_elem_of_singleton in Hin. contradiction.
  - exists (store_recorded env selected (with_key env h0)),
           (session_of env selected (store_selected env selected (with_key env h0))).
    destruct main_recorded as [_ ->]. rewrite lookup_insert_eq.
    split; [reflexivity|]. split; [|split].
    + unfold store_recorded, store_selected. rewrite Hneq. cbn [rawTextsUsed push_session].
      apply (proj1 (with_key_keeps_lists env h0)).
    + apply recorded_sessions.
    + unfold session_of, selector_of. cbn [selectorText]. now rewrite Hneq.
Qed.

(** X17: sessions numbered 1, 2, ... in their order stay so: the store a
    completed run writes has this numbering when the store loaded has it,
    and then no two of its sessions share an [id]. *)
Theorem session_ids_stay_in_order :
  ids_in_order h0 ->
  exists recorded,
    files (snd (main env s)) !! HISTORY_FILE env =
      Some (JSON.stringify (json_of_history recorded) 2) /\
    map id (sessions recorded) = map Z.of_nat (seq 1 (S (length (sessions h0)))) /\
    NoDup (map id (sessions recorded)).
Proof.
  intros Hids. exists (store_recorded env selected (with_key env h0)).
  destruct main_recorded as [_ ->]. rewrite lookup_insert_eq.
  split; [reflexivity|].
  assert (ids_in_order (store_recorded env selected (with_key env h0))) as Hrec.
  { unfold store_recorded. apply ids_in_order_snoc.
    - unfold ids_in_order. rewrite (sessions_selected env selected).
      now rewrite (proj2 (with_key_keeps_lists env h0)).
    - reflexivity. }
  split; [|now apply ids_in_order_NoDup].
  unfold ids_in_order in Hrec. rewrite Hrec, recorded_sessions, length_app.
  cbn [length]. now rewrite Nat.add_1_r.
Qed.

(** X18: the next run starts from what this one recorded: [loadHistory] on the
    disk a completed run leaves gives the store that was written, with the
    sessions of before and the new one, and with a key that is not empty,
    so that the key is not asked for again. *)
Theorem next_run_loads_the_record :
  wf_history h0 = true ->
  safe_integer (Z.of_nat (length (sessions h0)) + 1) = true ->
  exists recorded session,
    fst (loadHistory env (snd (main env s))) = Ok (parsed (json_of_history recorded)) /\
    typed_store (parsed (json_of_history recorded)) = Some recorded /\
    truthy_opt (openAiApiKey recorded) = true /\
    sessions recorded = sessions h0 ++ [session].
Proof.
  intros Hwf Hsafe.
  exists (store_recorded env selected (with_key env h0)),
         (session_of env selected (store_selected env selected (with_key env h0))).
  assert (openAiApiKey (store_recorded env selected (with_key env h0)) = Some key) as Hkey.
  { unfold store_recorded, store_selected. cbn [openAiApiKey push_session].
    destruct (String.eqb selected sentinel); [|exact key_ok].
    destruct (truthy (trim (typed env "newSelectorText"))); exact key_ok. }
  assert (wf_history (store_recorded env selected (with_key env h0)) = true) as Hwf'.
  { unfold wf_history. rewrite recorded_sessions, forallb_app. cbn [forallb id session_of].
    rewrite (sessions_selected env selected), (proj2 (with_key_keeps_lists env h0)), Hsafe.
    unfold wf_history in Hwf. now rewrite Hwf. }
  split; [|split; [|split]].
  - rewrite loadHistory_run. cbn [fst]. destruct main_recorded as [_ ->].
    rewrite lookup_insert_eq.
    now rewrite JSONFacts.parse_stringify by now apply wf_json_of_history.
  - unfold typed_store. now rewrite history_of_json_of_history, Hkey.
  - rewrite Hkey. exact key_truthy.
  - apply recorded_sessions.
Qed.

End Recorded.

End BothRead.

End Endings.

(** ** A history file that is not JSON *)



(** ** The endings at work *)

(** A first run with no history file: every question is put. *)
Lemma questions_in_order_witness :
  questions (trace (snd (main (Worlds.user 0) (Sample.fresh Worlds.inputs)))) =
    [] ++ ["Please enter your OpenAI API key:"]
    ++ "Select step or enter a new one:"
    :: ["Enter the raw text for this step:"]
    ++ ["Enter the absolute path of the first file:";
        "Enter the absolute path of the second file:";
        "(Optional) Enter the LLM task or prompt (press enter to skip):"].
Proof.
  refine (questions_in_order (Worlds.user 0) (Sample.fresh Worlds.inputs)
            (literal defaultHistory) defaultHistory "sk-test" sentinel _ _ _ _ _ _);
    first [reflexivity | intros _; reflexivity].
Defined.

(** A first run in an empty directory: both files are missing, the first
    is reported. *)
Lemma read_failure_diagnostic_witness :
  let env := Worlds.user 0 in
  let run := main env (Sample.fresh ∅) in
  (files_with_key env (Sample.fresh ∅) defaultHistory !! "/work/foo.txt" = None ->
   diagnostics (trace (snd run)) =
     [] ++ [[Str "Could not read first file:"; Exn (SystemError "ENOENT")]]) /\
  (files_with_key env (Sample.fresh ∅) defaultHistory !! "/work/foo.txt" <> None ->
   files_with_key env (Sample.fresh ∅) defaultHistory !! "/work/bar.txt" = None ->
   diagnostics (trace (snd run)) =
     [] ++ [[Str "Could not read second file:"; Exn (SystemError "ENOENT")]]).
Proof.
  refine (read_failure_diagnostic (Worlds.user 0) (Sample.fresh ∅)
            (literal defaultHistory) defaultHistory "sk-test" sentinel _ _ _ _ _ _);
    first [reflexivity | intros _; reflexivity].
Defined.

(** A run on the stored history whose request is rejected. *)
Lemma llm_failure_records_nothing_witness :
  let run := main Trouble.rejecting (Sample.fresh Worlds.disk) in
  fst run = Ok tt /\
  last (trace (snd run)) =
    Some (console_error_ev [Str (nl ++ "Error calling LLM:");
                            Exn (Error "Error in stream")]) /\
  files (snd run) = Worlds.disk.
Proof.
  refine (llm_failure_records_nothing Trouble.rejecting (Sample.fresh Worlds.disk)
            (parsed (json_of_history Worlds.store)) Worlds.store "sk-test" "demo"
            _ _ _ _ _ _ "alpha" "beta" _ _ (Error "Error in stream") _);
    first [reflexivity | intros _; reflexivity | vm_compute; reflexivity].
Defined.

(** The same run on a disk that refuses writes, the provider answering. *)
Lemma response_shown_but_not_recorded_witness :
  let run := main (Worlds.user 0) (Trouble.locked Worlds.disk) in
  fst run = Throw (SystemError "EROFS") /\
  last (trace (snd run)) = Some (complete_banner "Hello world") /\
  files (snd run) = Worlds.disk.
Proof.
  refine (response_shown_but_not_recorded (Worlds.user 0) (Trouble.locked Worlds.disk)
            (parsed (json_of_history Worlds.store)) Worlds.store "sk-test" "demo"
            _ _ _ _ _ _ "alpha" "beta" _ _ Sample.hello _ _ _);
    first [reflexivity | intros _; reflexivity | vm_compute; reflexivity
          | intros [=]].
Defined.

(** A first run: the key typed is "  sk-test ", the request goes out with
    "sk-test". *)
Lemma key_of_the_request_witness :
  senders (trace (snd (main (Worlds.user 0) (Sample.fresh Worlds.inputs)))) =
    [] ++ [ {| OpenAI.apiKey := "sk-test" |} ] /\
  (false = true -> None = Some "sk-test") /\
  (false = false -> "sk-test" = "sk-test").
Proof.
  refine (key_of_the_request (Worlds.user 0) (Sample.fresh Worlds.inputs)
            (literal defaultHistory) defaultHistory "sk-test" sentinel
            _ _ _ _ _ _ "alpha" "beta" _ _);
    first [reflexivity | intros _; reflexivity | vm_compute; reflexivity].
Defined.

(** A run on the stored history, the user picking the stored text. *)
Lemma stored_text_reused_witness :
  In "demo" ["demo"] /\
  exists recorded session,
    files (snd (main (Worlds.user 0) (Sample.fresh Worlds.disk))) !! Worlds.history_path =
      Some (JSON.stringify (json_of_history recorded) 2) /\
    rawTextsUsed recorded = ["demo"] /\
    sessions recorded = sessions Worlds.store ++ [session] /\
    selectorText session = "demo".
Proof.
  refine (stored_text_reused (Worlds.user 0) (Sample.fresh Worlds.disk)
            (parsed (json_of_history Worlds.store)) Worlds.store "sk-test" "demo"
            _ _ _ _ _ _ "alpha" "beta" _ _ Sample.hello _ _ _ _);
    first [reflexivity | intros _; reflexivity | vm_compute; reflexivity | discriminate].
Defined.

Lemma session_ids_stay_in_order_witness :
  exists recorded,
    files (snd (main (Worlds.user 0) (Sample.fresh Worlds.disk))) !! Worlds.history_path =
      Some (JSON.stringify (json_of_history recorded) 2) /\
    map id (sessions recorded) = [1; 2; 3]%Z /\
    NoDup (map id (sessions recorded)).
Proof.
  refine (session_ids_stay_in_order (Worlds.user 0) (Sample.fresh Worlds.disk)
            (parsed (json_of_history Worlds.store)) Worlds.store "sk-test" "demo"
            _ _ _ _ _ _ "alpha" "beta" _ _ Sample.hello _ _ _ _);
    first [reflexivity | intros _; reflexivity | vm_compute; reflexivity].
Defined.

Lemma next_run_loads_the_record_witness :
  exists recorded session,
    fst (loadHistory (Worlds.user 0)
           (snd (main (Worlds.user 0) (Sample.fresh Worlds.disk))))
      = Ok (parsed (json_of_history recorded)) /\
    typed_store (parsed (json_of_history recorded)) = Some recorded /\
    truthy_opt (openAiApiKey recorded) = true /\
    sessions recorded = sessions Worlds.store ++ [session].
Proof.
  refine (next_run_loads_the_record (Worlds.user 0) (Sample.fresh Worlds.disk)
            (parsed (json_of_history Worlds.store)) Worlds.store "sk-test" "demo"
            _ _ _ _ _ _ "alpha" "beta" _ _ Sample.hello _ _ _ _ _);
    first [reflexivity | intros _; reflexivity | vm_compute; reflexivity].
Defined.

(** A run on the stored history that ends on a missing file: nothing has
    changed. *)
Lemma history_only_grows_witness :
  let run := main (Worlds.user 0) (Sample.fresh (<[Worlds.history_path :=
               JSON.stringify (json_of_history Worlds.store) 2]> ∅)) in
  files (snd run) =
    <[Worlds.history_path := JSON.stringify (json_of_history Worlds.store) 2]> ∅ \/
  exists kept texts records,
    files (snd run) =
      <[Worlds.history_path := JSON.stringify (json_of_history kept) 2]>
        (<[Worlds.history_path := JSON.stringify (json_of_history Worlds.store) 2]> ∅) /\
    openAiApiKey kept = Some "sk-test" /\
    rawTextsUsed kept = ["demo"] ++ texts /\ length texts <= 1 /\
    sessions kept = sessions Worlds.store ++ records /\ length records <= 1.
Proof.
  refine (history_only_grows (Worlds.user 0)
            (Sample.fresh (<[Worlds.history_path :=
               JSON.stringify (json_of_history Worlds.store) 2]> ∅))
            (parsed (json_of_history Worlds.store)) Worlds.store "sk-test" "demo"
            _ _ _ _ _ _);
    first [reflexivity | intros _; reflexivity | vm_compute; reflexivity].
Defined.
